(** * The vocabulary components of the Der Spiegel translator site

    A shallow embedding of [src/components/VocabTable/index.js]: the
    table component [VocabTable] and the inline component [VocabWord].

    The components are JavaScript functions from a props object to a
    React element.  JavaScript values are embedded as plain data
    (section 1), JSX elements as a tree (section 2), the two components
    as functions over these (section 3).  Section 4 describes how React
    DOM shows children and attributes, which is what "a cell is empty"
    means; section 5 embeds the components a second time over a store
    of objects with reference semantics, so that the absence of effects
    is a statement about the store.  Section 6 holds sample data,
    section 7 the properties, section 8 further properties of the
    components' outcomes. *)

From stdpp Require Import base option list strings pretty gmap.

Open Scope string_scope.
Set Warnings "-register-all".

(** ** 1. JavaScript values *)

(** Plain data: the values MDX content can pass as props.  Numbers are
    the integral ones (list positions, lengths); a string is the list of
    its characters, of which the components read nothing but whether
    there is any; an array is the list of its items, without holes; an
    object is the list of its own properties, the first binding of a
    name being the one in effect.  Functions, getters, proxies and
    objects with a prototype of their own are outside the embedding. *)
Inductive value : Type :=
| VUndefined
| VNull
| VBool (b : bool)
| VNum (n : Z)
| VStr (s : string)
| VObj (fields : list (string * value))
| VArr (items : list value).

(** A JavaScript exception.  Engines differ on the message, which is left
    out.  [InvalidChild] is the error React raises for a child it cannot
    show; [BadReference] is the store model's (section 5) own, for a
    reference to no object, which JavaScript cannot form. *)
Inductive exn : Type :=
| TypeError
| InvalidChild
| BadReference.

Inductive result (A : Type) : Type :=
| Ok (a : A)
| Throw (e : exn).
Arguments Ok {A} a.
Arguments Throw {A} e.

#[global] Instance result_ret : MRet result := @Ok.
#[global] Instance result_bind : MBind result := λ A B f m,
  match m with
  | Ok a => f a
  | Throw e => Throw e
  end.

(** The binding of name [k] in a property or attribute list, if any. *)
Fixpoint field {V : Type} (fields : list (string * V)) (k : string) : option V :=
  match fields with
  | [] => None
  | (k', v) :: rest => if String.eqb k' k then Some v else field rest k
  end.

(** Own property [k] of an object; [undefined] when there is none. *)
Definition own (fields : list (string * value)) (k : string) : value :=
  default VUndefined (field fields k).

(** [undefined] and [null], the values without properties. *)
Definition nullish (v : value) : bool :=
  match v with
  | VUndefined | VNull => true
  | _ => false
  end.

(** [!v]'s operand: ToBoolean. *)
Definition truthy (v : value) : bool :=
  match v with
  | VUndefined | VNull => false
  | VBool b => b
  | VNum n => negb (n =? 0)%Z
  | VStr s => negb (String.eqb s "")
  | VObj _ | VArr _ => true
  end.

(** [v === n] for a number literal [n]. *)
Definition strict_eq_num (v : value) (n : Z) : bool :=
  match v with
  | VNum m => (m =? n)%Z
  | _ => false
  end.

(** Member access [v.k], for the data property names the components read
    ([length], [german], [english], [notes]): reading a property of
    [undefined] or [null] throws, a primitive has none of these but a
    string's [length], an array has [length]. *)
Definition get (v : value) (k : string) : result value :=
  match v with
  | VUndefined | VNull => Throw TypeError
  | VBool _ | VNum _ => Ok VUndefined
  | VStr s => Ok (if String.eqb k "length" then VNum (Z.of_nat (String.length s)) else VUndefined)
  | VObj fields => Ok (own fields k)
  | VArr items => Ok (if String.eqb k "length" then VNum (Z.of_nat (length items)) else VUndefined)
  end.

(** [items.map((x, i) => f x i)] from position [i] on: left to right,
    the first exception ends the call. *)
Fixpoint map_from {V A : Type} (f : V → nat → result A) (i : nat) (items : list V)
  : result (list A) :=
  match items with
  | [] => Ok []
  | x :: rest =>
      y ← f x i;
      ys ← map_from f (S i) rest;
      Ok (y :: ys)
  end.

(** [v.map(f)]: [Array.prototype.map] on an array; on anything else
    [v.map] is not a function and the call throws. *)
Definition array_map {A : Type} (v : value) (f : value → nat → result A)
  : result (list A) :=
  match v with
  | VArr items => map_from f 0 items
  | _ => Throw TypeError
  end.

(** ** 2. JSX elements *)

(** What a JSX expression builds, over values [V]: literal text, a
    [{expression}] child, an element with its attributes ([key] among
    them) and children, or an array of nodes used as a child. *)
Inductive node (V : Type) : Type :=
| Text (s : string)
| Expr (v : V)
| Elem (tag : string) (attrs : list (string * V)) (children : list (node V))
| Nodes (items : list (node V)).
Arguments Text {V} s.
Arguments Expr {V} v.
Arguments Elem {V} tag attrs children.
Arguments Nodes {V} items.

(** ** 3. The components *)

Section Components.

(** The CSS module [./styles.module.css]: the generated class name of
    each class it declares. *)
Variable styles : string → option string.

(** [styles.k] *)
Definition style (k : string) : value :=
  match styles k with
  | Some c => VStr c
  | None => VUndefined
  end.

(** [export default function VocabTable({ vocabulary })] *)
Definition VocabTable (props : list (string * value)) : result (node value) :=
  let vocabulary := own props "vocabulary" in
  no_data ←
    (if negb (truthy vocabulary) then Ok true
     else len ← get vocabulary "length"; Ok (strict_eq_num len 0));
  if no_data : bool then
    Ok (Elem "p" [] [Text "No vocabulary data available."])
  else
    rows ← array_map vocabulary (λ entry index,
      german ← get entry "german";
      english ← get entry "english";
      notes ← get entry "notes";
      Ok (Elem "tr" [("key", VNum (Z.of_nat index)); ("className", style "vocabRow")]
            [ Elem "td" [("className", style "germanWord")] [Expr german];
              Elem "td" [("className", style "englishWord")] [Expr english];
              Elem "td" [("className", style "notes")] [Expr notes] ]));
    Ok (Elem "div" [("className", style "vocabContainer")]
          [ Elem "table" [("className", style "vocabTable")]
              [ Elem "thead" []
                  [ Elem "tr" []
                      [ Elem "th" [("className", style "germanHeader")] [Text "German"];
                        Elem "th" [("className", style "englishHeader")] [Text "English"];
                        Elem "th" [("className", style "notesHeader")] [Text "Notes"] ] ];
                Elem "tbody" [] [Nodes rows] ] ]).

(** [export function VocabWord({ german, english })] *)
Definition VocabWord (props : list (string * value)) : node value :=
  let german := own props "german" in
  let english := own props "english" in
  Elem "span" [("className", style "vocabWord"); ("title", english)]
    [ Expr german;
      Elem "span" [("className", style "tooltip")] [Expr english] ].

(** *** Names for the parts of [VocabTable]

    The row built for one entry, the table around the rows, the
    message shown instead, and the guard, each as written above;
    [VocabTable_branch] below puts them together again. *)
Definition tr (index : nat) (german english notes : value) : node value :=
  Elem "tr" [("key", VNum (Z.of_nat index)); ("className", style "vocabRow")]
    [ Elem "td" [("className", style "germanWord")] [Expr german];
      Elem "td" [("className", style "englishWord")] [Expr english];
      Elem "td" [("className", style "notes")] [Expr notes] ].

Definition row_of (entry : value) (index : nat) : result (node value) :=
  german ← get entry "german";
  english ← get entry "english";
  notes ← get entry "notes";
  Ok (tr index german english notes).

Definition table (rs : list (node value)) : node value :=
  Elem "div" [("className", style "vocabContainer")]
    [ Elem "table" [("className", style "vocabTable")]
        [ Elem "thead" []
            [ Elem "tr" []
                [ Elem "th" [("className", style "germanHeader")] [Text "German"];
                  Elem "th" [("className", style "englishHeader")] [Text "English"];
                  Elem "th" [("className", style "notesHeader")] [Text "Notes"] ] ];
          Elem "tbody" [] [Nodes rs] ] ].

Definition fallback : node value :=
  Elem "p" [] [Text "No vocabulary data available."].

Definition no_data (vocabulary : value) : bool :=
  negb (truthy vocabulary) ||
  match get vocabulary "length" with
  | Ok len => strict_eq_num len 0
  | Throw _ => false
  end.

End Components.

(** ** 4. What React DOM shows *)

(** The text React DOM puts in the page for a [{value}] child: strings
    and numbers as text, [undefined], [null] and booleans as nothing, an
    array as its items in order; a plain object is not a valid child. *)
Fixpoint child_text (v : value) : result string :=
  match v with
  | VUndefined | VNull | VBool _ => Ok ""
  | VNum n => Ok (pretty n)
  | VStr s => Ok s
  | VObj _ => Throw InvalidChild
  | VArr items =>
      (fix each (l : list value) : result string :=
         match l with
         | [] => Ok ""
         | x :: rest => s ← child_text x; t ← each rest; Ok (s +:+ t)
         end) items
  end.

(** The text content of a rendered node. *)
Fixpoint text_content (n : node value) : result string :=
  let each := fix each (l : list (node value)) : result string :=
    match l with
    | [] => Ok ""
    | x :: rest => s ← text_content x; t ← each rest; Ok (s +:+ t)
    end in
  match n with
  | Text s => Ok s
  | Expr v => child_text v
  | Elem _ _ children => each children
  | Nodes items => each items
  end.

(** ToString, as in ['' + v]: an array is its items joined by commas,
    [undefined] and [null] items giving nothing. *)
Fixpoint to_string (v : value) : string :=
  match v with
  | VUndefined => "undefined"
  | VNull => "null"
  | VBool b => if b then "true" else "false"
  | VNum n => pretty n
  | VStr s => s
  | VObj _ => "[object Object]"
  | VArr items =>
      let item := λ x : value,
        match x with
        | VUndefined | VNull => ""
        | _ => to_string x
        end in
      (fix join (l : list value) : string :=
         match l with
         | [] => ""
         | x :: rest =>
             match rest with
             | [] => item x
             | _ :: _ => item x +:+ "," +:+ join rest
             end
         end) items
  end.

(** The value React DOM gives a string attribute such as [title]: the
    attribute is left out for [undefined], [null] and booleans, and is
    the value as a string otherwise. *)
Definition attr_text (v : value) : option string :=
  match v with
  | VUndefined | VNull | VBool _ => None
  | _ => Some (to_string v)
  end.

(** *** Reading a tree *)

(** Attribute [k] of an element. *)
Definition attr {V : Type} (k : string) (n : node V) : option V :=
  match n with
  | Elem _ attrs _ => field attrs k
  | _ => None
  end.

(** React flattens arrays used as children. *)
Fixpoint flat {V : Type} (n : node V) : list (node V) :=
  match n with
  | Nodes items => flat_map flat items
  | _ => [n]
  end.

(** The children of an element, in order. *)
Definition kids {V : Type} (n : node V) : list (node V) :=
  match n with
  | Elem _ _ children => flat_map flat children
  | _ => []
  end.

Definition has_tag {V : Type} (tag : string) (n : node V) : bool :=
  match n with
  | Elem t _ _ => String.eqb t tag
  | _ => false
  end.

(** The child elements with tag [tag] of the nodes [ns] ([ns > tag]). *)
Definition sel {V : Type} (tag : string) (ns : list (node V)) : list (node V) :=
  List.filter (has_tag tag) (flat_map kids ns).

(** The body rows of a rendered table, its header cells, the cells of a row. *)
Definition rows {V : Type} (out : node V) : list (node V) :=
  sel "tr" (sel "tbody" (sel "table" [out])).

Definition header {V : Type} (out : node V) : list (node V) :=
  sel "th" (sel "tr" (sel "thead" (sel "table" [out]))).

Definition cells {V : Type} (row : node V) : list (node V) :=
  sel "td" [row].

(** The three columns, in order. *)
Definition columns : list string := ["german"; "english"; "notes"].

Definition is_tr {V : Type} (n : node V) : Prop :=
  ∃ attrs children, n = Elem "tr" attrs children.

(** *** Inputs *)

(** The [vocabulary] prop is missing, [undefined], [null] or an empty
    array. *)
Definition absent_or_empty (props : list (string * value)) : Prop :=
  field props "vocabulary" = None ∨
  own props "vocabulary" = VUndefined ∨
  own props "vocabulary" = VNull ∨
  own props "vocabulary" = VArr [].

(** A text, or no value. *)
Definition text_or_absent (v : value) : Prop :=
  v = VUndefined ∨ v = VNull ∨ ∃ s, v = VStr s.

(** ** 5. The components over a store of objects *)

(** In JavaScript an object or array is a reference into a store that
    every piece of code holding the reference can read and write.  Here
    the components are embedded once more with that store explicit: a
    computation takes the store and returns it next to its result, so
    that a write, if there were one, would show. *)
Module Heap.

Definition loc : Type := positive.

(** A primitive, or a reference to an object of the store. *)
Inductive hval : Type :=
| HUndefined
| HNull
| HBool (b : bool)
| HNum (n : Z)
| HStr (s : string)
| HRef (l : loc).

Inductive object : Type :=
| Obj (fields : list (string * hval))
| Arr (items : list hval).

Abbreviation store := (gmap loc object).

(** A computation: an exception leaves the store as it is at the throw. *)
Definition M (A : Type) : Type := store → result A * store.

#[global] Instance M_ret : MRet M := λ A a σ, (Ok a, σ).
#[global] Instance M_bind : MBind M := λ A B f m σ,
  match m σ with
  | (Ok a, σ') => f a σ'
  | (Throw e, σ') => (Throw e, σ')
  end.

Definition throw {A : Type} (e : exn) : M A := λ σ, (Throw e, σ).

(** The object a reference points to. *)
Definition deref (l : loc) : M object := λ σ,
  match σ !! l with
  | Some o => (Ok o, σ)
  | None => (Throw BadReference, σ)
  end.

Definition own (fields : list (string * hval)) (k : string) : hval :=
  default HUndefined (field fields k).

Definition truthy (v : hval) : bool :=
  match v with
  | HUndefined | HNull => false
  | HBool b => b
  | HNum n => negb (n =? 0)%Z
  | HStr s => negb (String.eqb s "")
  | HRef _ => true
  end.

Definition strict_eq_num (v : hval) (n : Z) : bool :=
  match v with
  | HNum m => (m =? n)%Z
  | _ => false
  end.

(** Member access [v.k], for the names the components read. *)
Definition get (v : hval) (k : string) : M hval :=
  match v with
  | HUndefined | HNull => throw TypeError
  | HBool _ | HNum _ => mret HUndefined
  | HStr s =>
      mret (if String.eqb k "length" then HNum (Z.of_nat (String.length s)) else HUndefined)
  | HRef l =>
      o ← deref l;
      match o with
      | Obj fields => mret (own fields k)
      | Arr items =>
          mret (if String.eqb k "length" then HNum (Z.of_nat (length items)) else HUndefined)
      end
  end.

Fixpoint map_from {A : Type} (f : hval → nat → M A) (i : nat) (items : list hval)
  : M (list A) :=
  match items with
  | [] => mret []
  | x :: rest =>
      y ← f x i;
      ys ← map_from f (S i) rest;
      mret (y :: ys)
  end.

(** [v.map(f)]: the items are those the array holds when the call starts. *)
Definition array_map {A : Type} (v : hval) (f : hval → nat → M A) : M (list A) :=
  match v with
  | HRef l =>
      o ← deref l;
      match o with
      | Arr items => map_from f 0 items
      | Obj _ => throw TypeError
      end
  | _ => throw TypeError
  end.

Section Components.

Variable styles : string → option string.

Definition style (k : string) : hval :=
  match styles k with
  | Some c => HStr c
  | None => HUndefined
  end.

Definition VocabTable (props : list (string * hval)) : M (node hval) :=
  let vocabulary := own props "vocabulary" in
  no_data ←
    (if negb (truthy vocabulary) then mret true
     else len ← get vocabulary "length"; mret (strict_eq_num len 0));
  if no_data : bool then
    mret (Elem "p" [] [Text "No vocabulary data available."])
  else
    rows ← array_map vocabulary (λ entry index,
      german ← get entry "german";
      english ← get entry "english";
      notes ← get entry "notes";
      mret (Elem "tr" [("key", HNum (Z.of_nat index)); ("className", style "vocabRow")]
              [ Elem "td" [("className", style "germanWord")] [Expr german];
                Elem "td" [("className", style "englishWord")] [Expr english];
                Elem "td" [("className", style "notes")] [Expr notes] ]));
    mret (Elem "div" [("className", style "vocabContainer")]
            [ Elem "table" [("className", style "vocabTable")]
                [ Elem "thead" []
                    [ Elem "tr" []
                        [ Elem "th" [("className", style "germanHeader")] [Text "German"];
                          Elem "th" [("className", style "englishHeader")] [Text "English"];
                          Elem "th" [("className", style "notesHeader")] [Text "Notes"] ] ];
                  Elem "tbody" [] [Nodes rows] ] ]).

End Components.

(** *** Stores that hold plain data *)

(** A computation that leaves every store as it found it. *)
Definition read_only {A : Type} (m : M A) : Prop := ∀ σ : store, (m σ).2 = σ.

(** [repr σ h v]: in store [σ], [h] is the plain value [v]. *)
Inductive repr (σ : store) : hval → value → Prop :=
| repr_undefined : repr σ HUndefined VUndefined
| repr_null : repr σ HNull VNull
| repr_bool (b : bool) : repr σ (HBool b) (VBool b)
| repr_num (n : Z) : repr σ (HNum n) (VNum n)
| repr_str (s : string) : repr σ (HStr s) (VStr s)
| repr_obj (l : loc) (hfields : list (string * hval)) (fields : list (string * value)) :
    σ !! l = Some (Obj hfields) →
    Forall2 (λ hf f, hf.1 = f.1 ∧ repr σ hf.2 f.2) hfields fields →
    repr σ (HRef l) (VObj fields)
| repr_arr (l : loc) (hitems : list hval) (items : list value) :
    σ !! l = Some (Arr hitems) →
    Forall2 (repr σ) hitems items →
    repr σ (HRef l) (VArr items).

(** The same, for property lists, for the trees the components build
    and for their outcomes. *)
Definition repr_fields (σ : store)
    (hfields : list (string * hval)) (fields : list (string * value)) : Prop :=
  Forall2 (λ hf f, hf.1 = f.1 ∧ repr σ hf.2 f.2) hfields fields.

Inductive repr_node (σ : store) : node hval → node value → Prop :=
| repr_Text (s : string) : repr_node σ (Text s) (Text s)
| repr_Expr (h : hval) (v : value) : repr σ h v → repr_node σ (Expr h) (Expr v)
| repr_Elem (tag : string) (hattrs : list (string * hval)) (attrs : list (string * value))
    (hs : list (node hval)) (ns : list (node value)) :
    repr_fields σ hattrs attrs →
    Forall2 (repr_node σ) hs ns →
    repr_node σ (Elem tag hattrs hs) (Elem tag attrs ns)
| repr_Nodes (hs : list (node hval)) (ns : list (node value)) :
    Forall2 (repr_node σ) hs ns →
    repr_node σ (Nodes hs) (Nodes ns).

Inductive repr_result {A B : Type} (R : A → B → Prop) : result A → result B → Prop :=
| repr_Ok (a : A) (b : B) : R a b → repr_result R (Ok a) (Ok b)
| repr_Throw (e : exn) : repr_result R (Throw e) (Throw e).

End Heap.

(** ** 6. Sample data *)

(** A CSS module that declares every class the components name. *)
Definition css (k : string) : option string := Some (k +:+ "_3xK2p").

(** The vocabulary of the specification's scenario: an entry with notes
    and one without. *)
Definition haus : list (string * value) :=
  [("german", VStr "Haus"); ("english", VStr "house"); ("notes", VStr "neuter")].

Definition gehen : list (string * value) :=
  [("german", VStr "gehen"); ("english", VStr "to go")].

Definition sample_props : list (string * value) :=
  [("vocabulary", VArr [VObj haus; VObj gehen])].

(** The same list, each entry carrying fields the table does not show. *)
Definition sample_props_extra : list (string * value) :=
  [("vocabulary",
    VArr [ VObj (("id", VNum 7) :: haus);
           VObj [("english", VStr "to go"); ("level", VStr "A1"); ("german", VStr "gehen")] ]);
   ("children", VNull)].

(** Entries that lack fields: one with [english] alone, one with nothing. *)
Definition malformed_props : list (string * value) :=
  [("vocabulary", VArr (VObj <$> [[("english", VStr "house")]; []]))].

Definition word_props : list (string * value) :=
  [("german", VStr "Haus"); ("english", VStr "house")].

(** A store that holds the sample vocabulary, and props that refer to it. *)
Definition sample_store : gmap positive Heap.object :=
  {[ 1%positive := Heap.Arr [Heap.HRef 2%positive; Heap.HRef 3%positive];
     2%positive := Heap.Obj [("german", Heap.HStr "Haus"); ("english", Heap.HStr "house");
                             ("notes", Heap.HStr "neuter")];
     3%positive := Heap.Obj [("german", Heap.HStr "gehen"); ("english", Heap.HStr "to go")] ]}.

Definition sample_hprops : list (string * Heap.hval) :=
  [("vocabulary", Heap.HRef 1%positive)].

(** *** More ways to read a tree *)

(** The tree without its class names. *)
Fixpoint unstyled (n : node value) : node value :=
  match n with
  | Elem tag attrs children =>
      Elem tag (List.filter (λ a, negb (String.eqb a.1 "className")) attrs)
        (List.map unstyled children)
  | Nodes items => Nodes (List.map unstyled items)
  | _ => n
  end.

(** React can show the value, the node: there is no plain object in the
    way. *)
Definition valid_child (v : value) : Prop := ∃ s, child_text v = Ok s.

Definition shows (n : node value) : Prop := ∃ s, text_content n = Ok s.

(** *** More sample data *)

(** The table [VocabTable] returns for the sample list. *)
Definition sample_table : node value :=
  table css
    [ tr css 0 (VStr "Haus") (VStr "house") (VStr "neuter");
      tr css 1 (VStr "gehen") (VStr "to go") VUndefined ].

(** The sample list cut to its first entry, and to its second. *)
Definition haus_props : list (string * value) := [("vocabulary", VArr [VObj haus])].

Definition gehen_props : list (string * value) := [("vocabulary", VArr [VObj gehen])].

(** A list with a [null] among its entries. *)
Definition null_entry_props : list (string * value) :=
  [("vocabulary", VArr [VObj haus; VNull])].

(** The sample store next to an object of other code. *)
Definition busy_store : gmap positive Heap.object :=
  <[ 9%positive := Heap.Obj [("theme", Heap.HStr "dark")] ]> sample_store.

(** ** 7. Properties *)

(** *** The exception monad *)

Lemma bind_Ok {A B : Type} (f : A → result B) (a : A) : (Ok a ≫= f) = f a.
Proof. reflexivity. Qed.

Lemma bind_Throw {A B : Type} (f : A → result B) (e : exn) : (Throw e ≫= f) = Throw e.
Proof. reflexivity. Qed.

Lemma bind_Ok_inv {A B : Type} (f : A → result B) (m : result A) (b : B) :
  (m ≫= f) = Ok b → ∃ a, m = Ok a ∧ f a = Ok b.
Proof. destruct m as [a|e]; [eauto | discriminate]. Qed.

(** *** Member access *)

Lemma get_record (fields : list (string * value)) (k : string) :
  get (VObj fields) k = Ok (own fields k).
Proof. reflexivity. Qed.

Lemma get_nullish (v : value) (k : string) :
  nullish v = true → get v k = Throw TypeError.
Proof. by destruct v. Qed.

Lemma get_defined (v : value) (k : string) :
  nullish v = false → ∃ w, get v k = Ok w.
Proof. destruct v; (discriminate || eauto). Qed.

Lemma truthy_not_nullish (v : value) : truthy v = true → nullish v = false.
Proof. by destruct v. Qed.

(** *** [map] *)

Lemma map_from_Ok_inv {V A : Type} (f : V → nat → result A) (items : list V) :
  ∀ (i : nat) (ys : list A),
    map_from f i items = Ok ys →
    length ys = length items ∧
    ∀ (j : nat) (x : V), items !! j = Some x →
      ∃ y, ys !! j = Some y ∧ f x (i + j) = Ok y.
Proof.
  induction items as [|x rest IH]; intros i ys H; simpl in H.
  - injection H as <-. split; [done|]. intros j x Hx. by rewrite lookup_nil in Hx.
  - apply bind_Ok_inv in H as (y & Hy & H).
    apply bind_Ok_inv in H as (ys' & Hys & H).
    injection H as <-.
    destruct (IH _ _ Hys) as [Hlen Hnth].
    split; [simpl; by rewrite Hlen|].
    intros [|j] x' Hx'; simpl in *.
    + injection Hx' as <-. exists y. by rewrite Nat.add_0_r.
    + destruct (Hnth j x' Hx') as (y' & ? & ?). exists y'.
      by rewrite <- Nat.add_succ_comm.
Qed.

Lemma map_from_total {V A : Type} (f : V → nat → result A) (items : list V) :
  ∀ i : nat,
    (∀ (j : nat) (x : V), items !! j = Some x → ∃ y, f x (i + j) = Ok y) →
    ∃ ys, map_from f i items = Ok ys.
Proof.
  induction items as [|x rest IH]; intros i Hf; simpl; [eauto|].
  destruct (Hf 0 x eq_refl) as [y Hy]. rewrite Nat.add_0_r in Hy.
  rewrite Hy, bind_Ok.
  destruct (IH (S i)) as [ys Hys].
  - intros j x' Hx'. rewrite Nat.add_succ_comm. by apply Hf.
  - rewrite Hys. simpl. eauto.
Qed.

Lemma map_from_ext {V A : Type} (f g : V → nat → result A) (xs ys : list V) :
  ∀ i : nat,
    Forall2 (λ x y, ∀ j, f x j = g y j) xs ys →
    map_from f i xs = map_from g i ys.
Proof.
  intros i H. revert i.
  induction H as [|x y xs ys Hxy _ IH]; intros i; simpl; [done|].
  by rewrite Hxy, IH.
Qed.

(** *** The table [VocabTable] builds *)

Section Table.

Variable styles : string → option string.

(** The one branch of the component. *)
Lemma VocabTable_branch (props : list (string * value)) :
  VocabTable styles props =
    if no_data (own props "vocabulary") then Ok fallback
    else rs ← array_map (own props "vocabulary") (row_of styles); Ok (table styles rs).
Proof.
  unfold VocabTable, no_data.
  destruct (truthy (own props "vocabulary")) eqn:Ht; simpl; [|done].
  destruct (get_defined _ "length" (truthy_not_nullish _ Ht)) as [len ->].
  rewrite bind_Ok. simpl. by destruct (strict_eq_num len 0).
Qed.

Lemma no_data_array (items : list value) :
  no_data (VArr items) = bool_decide (items = []).
Proof. by destruct items. Qed.

Lemma VocabTable_array (props : list (string * value)) (items : list value) :
  own props "vocabulary" = VArr items → items ≠ [] →
  VocabTable styles props = (rs ← map_from (row_of styles) 0 items; Ok (table styles rs)).
Proof.
  intros Hv Hne. rewrite VocabTable_branch, Hv, no_data_array.
  by rewrite bool_decide_eq_false_2.
Qed.

Lemma row_of_defined (entry : value) (index : nat) :
  nullish entry = false →
  ∃ g e n, get entry "german" = Ok g ∧ get entry "english" = Ok e ∧
           get entry "notes" = Ok n ∧ row_of styles entry index = Ok (tr styles index g e n).
Proof.
  intros H. unfold row_of.
  destruct (get_defined entry "german" H) as [g Hg].
  destruct (get_defined entry "english" H) as [e He].
  destruct (get_defined entry "notes" H) as [n Hn].
  exists g, e, n. by rewrite Hg, He, Hn.
Qed.

Lemma row_of_Ok_inv (entry : value) (index : nat) (row : node value) :
  row_of styles entry index = Ok row →
  ∃ g e n, get entry "german" = Ok g ∧ get entry "english" = Ok e ∧
           get entry "notes" = Ok n ∧ row = tr styles index g e n.
Proof.
  unfold row_of. intros H.
  apply bind_Ok_inv in H as (g & Hg & H).
  apply bind_Ok_inv in H as (e & He & H).
  apply bind_Ok_inv in H as (n & Hn & H).
  injection H as <-. by exists g, e, n.
Qed.

Lemma rows_table (rs : list (node value)) :
  Forall is_tr rs → rows (table styles rs) = rs.
Proof.
  intros H. unfold rows, sel, table. simpl. rewrite !app_nil_r.
  induction H as [|r rs (attrs & children & ->) _ IH]; simpl; [done|].
  by rewrite IH.
Qed.

Lemma header_table (rs : list (node value)) :
  text_content <$> header (table styles rs) = [Ok "German"; Ok "English"; Ok "Notes"].
Proof. reflexivity. Qed.

Lemma cells_tr (index : nat) (g e n : value) :
  kids <$> cells (tr styles index g e n) = [[Expr g]; [Expr e]; [Expr n]].
Proof. reflexivity. Qed.

(** A non-empty list none of whose entries is [undefined] or [null]
    renders as the table of its rows. *)
Lemma VocabTable_table (props : list (string * value)) (items : list value) :
  own props "vocabulary" = VArr items → items ≠ [] →
  Forall (λ entry, nullish entry = false) items →
  ∃ rs, VocabTable styles props = Ok (table styles rs) ∧
        rows (table styles rs) = rs ∧
        length rs = length items ∧
        ∀ (i : nat) (entry : value), items !! i = Some entry →
          ∃ g e n, get entry "german" = Ok g ∧ get entry "english" = Ok e ∧
                   get entry "notes" = Ok n ∧ rs !! i = Some (tr styles i g e n).
Proof.
  intros Hv Hne Hall. rewrite (VocabTable_array _ _ Hv Hne).
  destruct (map_from_total (row_of styles) items 0) as [rs Hrs].
  { intros j x Hx. rewrite Forall_lookup in Hall.
    destruct (row_of_defined x (0 + j) (Hall _ _ Hx)) as (g & e & n & _ & _ & _ & ?).
    eauto. }
  rewrite Hrs, bind_Ok. exists rs.
  destruct (map_from_Ok_inv _ _ _ _ Hrs) as [Hlen Hnth].
  assert (Hrow : ∀ i entry, items !! i = Some entry →
    ∃ g e n, get entry "german" = Ok g ∧ get entry "english" = Ok e ∧
             get entry "notes" = Ok n ∧ rs !! i = Some (tr styles i g e n)).
  { intros i entry Hi. destruct (Hnth i entry Hi) as (row & Hrow & Hf).
    apply row_of_Ok_inv in Hf as (g & e & n & ? & ? & ? & ->).
    by exists g, e, n. }
  repeat split; [|done|done].
  apply rows_table, Forall_lookup. intros i row Hi.
  destruct (lookup_lt_is_Some_2 items i) as [entry He].
  { rewrite <- Hlen. by eapply lookup_lt_Some. }
  destruct (Hrow i entry He) as (g & e & n & _ & _ & _ & Hr).
  rewrite Hi in Hr. injection Hr as ->. unfold is_tr, tr. eauto.
Qed.

End Table.

(** *** What the cells show *)

Lemma append_empty_r (s : string) : s +:+ "" = s.
Proof.
  induction s as [|c s IH]; [done|].
  change (String c (s +:+ "") = String c s). by rewrite IH.
Qed.

(** An element around one [{value}] child shows that value. *)
Lemma text_content_wrap (tag : string) (attrs : list (string * value)) (v : value) :
  text_content (Elem tag attrs [Expr v]) = child_text v.
Proof.
  simpl. destruct (child_text v) as [s|e]; simpl; [|done].
  by rewrite append_empty_r.
Qed.

Lemma cell_texts_tr (styles : string → option string) (index : nat) (g e n : value) :
  text_content <$> cells (tr styles index g e n) = [child_text g; child_text e; child_text n].
Proof.
  change (cells (tr styles index g e n)) with
    [ Elem "td" [("className", style styles "germanWord")] [Expr g];
      Elem "td" [("className", style styles "englishWord")] [Expr e];
      Elem "td" [("className", style styles "notes")] [Expr n] ].
  cbn [fmap list_fmap]. by rewrite !text_content_wrap.
Qed.

Lemma own_absent (fields : list (string * value)) (k : string) :
  field fields k = None → own fields k = VUndefined.
Proof. unfold own. by intros ->. Qed.

Lemma Forall_record (entries : list (list (string * value))) :
  Forall (λ entry, nullish entry = false) (VObj <$> entries).
Proof. apply Forall_fmap, Forall_true. done. Qed.

(** *** The table component *)

Section VocabTable_properties.

Variable styles : string → option string.

(** C1.  A non-empty list of N entries renders as a table of exactly N
    body rows, row [i] for entry [i]; the three cells of a row hold the
    entry's [german], [english] and [notes] values, untouched, and show
    them as they are when they are texts, the notes cell showing
    nothing when the entry has no notes. *)
Theorem VocabTable_rows_verbatim
    (props : list (string * value)) (entries : list (list (string * value))) :
  own props "vocabulary" = VArr (VObj <$> entries) →
  entries ≠ [] →
  ∃ out,
    VocabTable styles props = Ok out ∧
    length (rows out) = length entries ∧
    ∀ (i : nat) (fields : list (string * value)),
      entries !! i = Some fields →
      ∃ row,
        rows out !! i = Some row ∧
        kids <$> cells row =
          [ [Expr (own fields "german")]; [Expr (own fields "english")];
            [Expr (own fields "notes")] ] ∧
        ∀ g e : string,
          own fields "german" = VStr g →
          own fields "english" = VStr e →
          (∀ n : string, own fields "notes" = VStr n →
             text_content <$> cells row = [Ok g; Ok e; Ok n]) ∧
          (nullish (own fields "notes") = true →
             text_content <$> cells row = [Ok g; Ok e; Ok ""]).
Proof.
  intros Hv Hne.
  destruct (VocabTable_table styles props (VObj <$> entries) Hv) as (rs & Hout & Hrows & Hlen & Hnth).
  { by destruct entries. }
  { apply Forall_record. }
  exists (table styles rs). rewrite Hrows.
  split; [done|]. split; [by rewrite Hlen, length_fmap|].
  intros i fields Hi.
  destruct (Hnth i (VObj fields)) as (g & e & n & Hg & He & Hn & Hrow).
  { by rewrite list_lookup_fmap, Hi. }
  rewrite get_record in Hg, He, Hn.
  injection Hg as <-. injection He as <-. injection Hn as <-.
  eexists. split; [exact Hrow|]. split; [reflexivity|].
  intros g e Hg He. rewrite cell_texts_tr, Hg, He. split.
  - by intros n ->.
  - intros Hn. by destruct (own fields "notes").
Qed.

(** C2.  When the vocabulary is missing, [undefined], [null] or an
    empty array, the component returns the one paragraph "No
    vocabulary data available." and nothing else: no table; any two
    such inputs give the same output. *)
Theorem VocabTable_no_data (props props' : list (string * value)) :
  absent_or_empty props →
  absent_or_empty props' →
  VocabTable styles props = Ok (Elem "p" [] [Text "No vocabulary data available."]) ∧
  VocabTable styles props' = VocabTable styles props ∧
  ∀ out, VocabTable styles props = Ok out →
    text_content out = Ok "No vocabulary data available." ∧
    has_tag "table" out = false ∧
    sel "table" [out] = [] ∧ rows out = [] ∧ header out = [].
Proof.
  assert (H : ∀ p, absent_or_empty p →
    VocabTable styles p = Ok (Elem "p" [] [Text "No vocabulary data available."])).
  { intros p [Hp|[Hp|[Hp|Hp]]]; [apply own_absent in Hp| | |];
      by rewrite VocabTable_branch, Hp. }
  intros Hp Hp'. rewrite (H _ Hp), (H _ Hp').
  split; [done|]. split; [done|].
  intros out [= <-]. by repeat split.
Qed.

(** C3.  The table rendered for a non-empty list has one header row of
    three cells, "German", "English" and "Notes" in this order,
    whatever the entries are. *)
Theorem VocabTable_header
    (props : list (string * value)) (entries : list (list (string * value))) :
  own props "vocabulary" = VArr (VObj <$> entries) →
  entries ≠ [] →
  ∃ out,
    VocabTable styles props = Ok out ∧
    kids <$> header out = [[Text "German"]; [Text "English"]; [Text "Notes"]] ∧
    text_content <$> header out = [Ok "German"; Ok "English"; Ok "Notes"] ∧
    length (sel "tr" (sel "thead" (sel "table" [out]))) = 1.
Proof.
  intros Hv Hne.
  destruct (VocabTable_table styles props (VObj <$> entries) Hv) as (rs & Hout & _).
  { by destruct entries. }
  { apply Forall_record. }
  exists (table styles rs). by repeat split.
Qed.

(** C5.  A non-empty list whose entries lack fields still renders: the
    component returns a table, not an exception and not the no-data
    message, with one row per entry, and the cell of a field the entry
    does not have holds [undefined], which shows as nothing.  Which of
    the two outputs is built depends on the no-data guard alone. *)
Theorem VocabTable_missing_fields
    (props : list (string * value)) (entries : list (list (string * value))) :
  own props "vocabulary" = VArr (VObj <$> entries) →
  entries ≠ [] →
  (∀ p, VocabTable styles p =
          if no_data (own p "vocabulary") then Ok fallback
          else rs ← array_map (own p "vocabulary") (row_of styles); Ok (table styles rs)) ∧
  no_data (own props "vocabulary") = false ∧
  ∃ out,
    VocabTable styles props = Ok out ∧
    out ≠ fallback ∧
    length (rows out) = length entries ∧
    ∀ (i : nat) (fields : list (string * value)),
      entries !! i = Some fields →
      ∃ row,
        rows out !! i = Some row ∧
        length (cells row) = 3 ∧
        ∀ (c : nat) (k : string),
          columns !! c = Some k →
          field fields k = None →
          ∃ cell,
            cells row !! c = Some cell ∧
            kids cell = [Expr VUndefined] ∧
            text_content cell = Ok "".
Proof.
  intros Hv Hne. split; [apply VocabTable_branch|]. split.
  { rewrite Hv, no_data_array. apply bool_decide_eq_false_2. by destruct entries. }
  destruct (VocabTable_table styles props (VObj <$> entries) Hv) as (rs & Hout & Hrows & Hlen & Hnth).
  { by destruct entries. }
  { apply Forall_record. }
  exists (table styles rs). rewrite Hrows.
  split; [done|]. split; [done|]. split; [by rewrite Hlen, length_fmap|].
  intros i fields Hi.
  destruct (Hnth i (VObj fields)) as (g & e & n & Hg & He & Hn & Hrow).
  { by rewrite list_lookup_fmap, Hi. }
  rewrite get_record in Hg, He, Hn.
  injection Hg as <-. injection He as <-. injection Hn as <-.
  eexists. split; [exact Hrow|]. split; [done|].
  intros c k Hc Hk. apply own_absent in Hk.
  destruct c as [|[|[|c]]]; simpl in Hc; [| | |done];
    injection Hc as <-; rewrite Hk; eexists; (split; [reflexivity|]); by split.
Qed.

(** C6.  A list of exactly one entry renders as a table with its header
    and exactly one body row, which shows that entry; it is not the
    no-data message. *)
Theorem VocabTable_singleton
    (props : list (string * value)) (fields : list (string * value)) :
  own props "vocabulary" = VArr [VObj fields] →
  ∃ out row,
    VocabTable styles props = Ok out ∧
    out ≠ fallback ∧
    length (header out) = 3 ∧
    rows out = [row] ∧
    kids <$> cells row =
      [ [Expr (own fields "german")]; [Expr (own fields "english")];
        [Expr (own fields "notes")] ].
Proof.
  intros Hv.
  exists (table styles [tr styles 0 (own fields "german") (own fields "english") (own fields "notes")]).
  eexists. split.
  - by rewrite VocabTable_branch, Hv.
  - by repeat split.
Qed.

(** C8.  In the table rendered for a non-empty list, the [key] of body
    row [i] is the number [i], the position of its entry in the list. *)
Theorem VocabTable_row_keys
    (props : list (string * value)) (entries : list (list (string * value))) :
  own props "vocabulary" = VArr (VObj <$> entries) →
  entries ≠ [] →
  ∃ out,
    VocabTable styles props = Ok out ∧
    length (rows out) = length entries ∧
    ∀ (i : nat) (row : node value),
      rows out !! i = Some row →
      attr "key" row = Some (VNum (Z.of_nat i)).
Proof.
  intros Hv Hne.
  destruct (VocabTable_table styles props (VObj <$> entries) Hv) as (rs & Hout & Hrows & Hlen & Hnth).
  { by destruct entries. }
  { apply Forall_record. }
  exists (table styles rs). rewrite Hrows.
  split; [done|]. split; [by rewrite Hlen, length_fmap|].
  intros i row Hi.
  destruct (lookup_lt_is_Some_2 (VObj <$> entries) i) as [entry He].
  { rewrite <- Hlen. by eapply lookup_lt_Some. }
  destruct (Hnth i entry He) as (g & e & n & _ & _ & _ & Hrow).
  rewrite Hi in Hrow. by injection Hrow as ->.
Qed.

(** C10.  Two lists of records of the same length whose entries agree,
    position by position, on [german], [english] and [notes] render
    the same, whatever else the records or the props carry. *)
Theorem VocabTable_noninterference
    (props props' : list (string * value))
    (entries entries' : list (list (string * value))) :
  own props "vocabulary" = VArr (VObj <$> entries) →
  own props' "vocabulary" = VArr (VObj <$> entries') →
  Forall2 (λ fields fields', ∀ k, k ∈ columns → own fields k = own fields' k)
    entries entries' →
  VocabTable styles props = VocabTable styles props'.
Proof.
  intros Hv Hv' Hagree.
  rewrite !VocabTable_branch, Hv, Hv', !no_data_array.
  pose proof (Forall2_length _ _ _ Hagree) as Hlen.
  destruct entries as [|f fs], entries' as [|f' fs']; try done.
  rewrite !bool_decide_eq_false_2 by done.
  unfold array_map.
  replace (map_from (row_of styles) 0 (VObj <$> f :: fs))
    with (map_from (row_of styles) 0 (VObj <$> f' :: fs')); [done|].
  symmetry. apply map_from_ext, Forall2_fmap.
  eapply Forall2_impl; [exact Hagree|].
  intros x y Hxy j. unfold row_of. rewrite !get_record.
  rewrite (Hxy "german"), (Hxy "english"), (Hxy "notes"); [done|..];
    unfold columns; set_solver.
Qed.

End VocabTable_properties.

(** *** The inline component *)

Section VocabWord_properties.

Variable styles : string → option string.

(** C4.  For a pair of texts, the fragment's first child, its visible
    text, is [german]; [english] is the [title] attribute of the
    fragment and the one child of the tooltip [span] that follows. *)
Theorem VocabWord_pair (props : list (string * value)) (g e : string) :
  own props "german" = VStr g →
  own props "english" = VStr e →
  ∃ tooltip,
    kids (VocabWord styles props) = [Expr (VStr g); tooltip] ∧
    text_content (Expr (VStr g)) = Ok g ∧
    attr "title" (VocabWord styles props) = Some (VStr e) ∧
    attr "title" (VocabWord styles props) ≫= attr_text = Some e ∧
    sel "span" [VocabWord styles props] = [tooltip] ∧
    attr "className" tooltip = Some (style styles "tooltip") ∧
    kids tooltip = [Expr (VStr e)] ∧
    text_content tooltip = Ok e.
Proof.
  intros Hg He. unfold VocabWord. rewrite Hg, He.
  eexists. repeat split. apply text_content_wrap.
Qed.

(** C9.  The inline component has no failing step.  With [german] and
    [english] each a text or absent, React shows the fragment without
    an error; an absent [german] shows as no text, an absent [english]
    as an empty tooltip and no [title]. *)
Theorem VocabWord_absent (props : list (string * value)) :
  text_or_absent (own props "german") →
  text_or_absent (own props "english") →
  ∃ first tooltip shown,
    kids (VocabWord styles props) = [first; tooltip] ∧
    sel "span" [VocabWord styles props] = [tooltip] ∧
    text_content (VocabWord styles props) = Ok shown ∧
    (nullish (own props "german") = true → text_content first = Ok "") ∧
    (nullish (own props "english") = true →
       text_content tooltip = Ok "" ∧
       attr "title" (VocabWord styles props) ≫= attr_text = None) ∧
    (nullish (own props "german") = true → nullish (own props "english") = true →
       shown = "").
Proof.
  intros Hg He. unfold VocabWord.
  exists (Expr (own props "german")).
  exists (Elem "span" [("className", style styles "tooltip")] [Expr (own props "english")]).
  assert (Ht : ∀ v, text_or_absent v → ∃ s, child_text v = Ok s).
  { intros v [->|[->|[s ->]]]; simpl; eauto. }
  destruct (Ht _ Hg) as [sg Hsg]. destruct (Ht _ He) as [se Hse].
  exists (sg +:+ se).
  split; [done|]. split; [done|]. split.
  { simpl. rewrite Hsg, Hse. simpl. by rewrite !append_empty_r. }
  split; [|split].
  - intros H. by destruct (own props "german").
  - intros H. by destruct (own props "english").
  - intros H1 H2.
    destruct (own props "german"); try discriminate H1;
      destruct (own props "english"); try discriminate H2;
      simpl in *; by injection Hsg as <-; injection Hse as <-.
Qed.

End VocabWord_properties.

(** *** The store is only read *)

Create HintDb read_only discriminated.

Lemma read_only_ret {A : Type} (a : A) : Heap.read_only (mret a : Heap.M A).
Proof. by intros σ. Qed.

Lemma read_only_throw {A : Type} (e : exn) : Heap.read_only (Heap.throw e : Heap.M A).
Proof. by intros σ. Qed.

Lemma read_only_bind {A B : Type} (m : Heap.M A) (f : A → Heap.M B) :
  Heap.read_only m → (∀ a, Heap.read_only (f a)) → Heap.read_only (m ≫= f).
Proof.
  intros Hm Hf σ. unfold mbind, Heap.M_bind.
  specialize (Hm σ). destruct (m σ) as [[a|e] σ']; simpl in Hm; subst σ'; [apply Hf | done].
Qed.

Lemma read_only_deref (l : Heap.loc) : Heap.read_only (Heap.deref l).
Proof. intros σ. unfold Heap.deref. by destruct (σ !! l). Qed.

#[local] Hint Resolve read_only_ret read_only_throw read_only_deref : read_only.

Lemma read_only_get (v : Heap.hval) (k : string) : Heap.read_only (Heap.get v k).
Proof.
  destruct v; simpl; auto with read_only.
  apply read_only_bind; [auto with read_only|].
  intros [fields|items]; auto with read_only.
Qed.

Lemma read_only_map_from {A : Type} (f : Heap.hval → nat → Heap.M A) (items : list Heap.hval) :
  (∀ x i, Heap.read_only (f x i)) → ∀ i, Heap.read_only (Heap.map_from f i items).
Proof.
  intros Hf. induction items as [|x rest IH]; intros i; simpl; [auto with read_only|].
  apply read_only_bind; [apply Hf|]. intros y.
  apply read_only_bind; [apply IH|]. intros ys. auto with read_only.
Qed.

Lemma read_only_array_map {A : Type} (v : Heap.hval) (f : Heap.hval → nat → Heap.M A) :
  (∀ x i, Heap.read_only (f x i)) → Heap.read_only (Heap.array_map v f).
Proof.
  intros Hf. destruct v; simpl; auto with read_only.
  apply read_only_bind; [auto with read_only|].
  intros [fields|items]; [auto with read_only|]. by apply read_only_map_from.
Qed.

Lemma read_only_VocabTable (styles : string → option string)
    (props : list (string * Heap.hval)) :
  Heap.read_only (Heap.VocabTable styles props).
Proof.
  unfold Heap.VocabTable.
  apply read_only_bind.
  { destruct (negb _); [auto with read_only|].
    apply read_only_bind; [apply read_only_get|]. auto with read_only. }
  intros [|]; [auto with read_only|].
  apply read_only_bind; [|auto with read_only].
  apply read_only_array_map. intros entry index.
  repeat (apply read_only_bind; [apply read_only_get|]; intros ?).
  auto with read_only.
Qed.

(** *** Over plain data the two embeddings agree *)

Section Agreement.

Variable σ : Heap.store.

Lemma repr_own (hfields : list (string * Heap.hval)) (fields : list (string * value))
    (k : string) :
  Heap.repr_fields σ hfields fields →
  Heap.repr σ (Heap.own hfields k) (own fields k).
Proof.
  unfold Heap.own, own.
  induction 1 as [|[hk h] [k' v] hfields fields [Hk Hv] _ IH]; simpl in *.
  - constructor.
  - subst k'. by destruct (String.eqb hk k).
Qed.

Lemma repr_truthy (h : Heap.hval) (v : value) :
  Heap.repr σ h v → Heap.truthy h = truthy v.
Proof. by destruct 1. Qed.

Lemma repr_strict_eq_num (h : Heap.hval) (v : value) (n : Z) :
  Heap.repr σ h v → Heap.strict_eq_num h n = strict_eq_num v n.
Proof. by destruct 1. Qed.

Lemma repr_get (h : Heap.hval) (v : value) (k : string) :
  Heap.repr σ h v →
  ∃ r, Heap.get h k σ = (r, σ) ∧ Heap.repr_result (Heap.repr σ) r (get v k).
Proof.
  destruct 1 as [| | | | |l hfields fields Hl Hf|l hitems items Hl Hi]; simpl.
  - eexists. split; [done|]. constructor.
  - eexists. split; [done|]. constructor.
  - eexists. split; [done|]. repeat constructor.
  - eexists. split; [done|]. repeat constructor.
  - eexists. split; [done|]. constructor. destruct (String.eqb k "length"); constructor.
  - unfold mbind, Heap.M_bind, Heap.deref. rewrite Hl.
    eexists. split; [done|]. constructor. by apply repr_own.
  - unfold mbind, Heap.M_bind, Heap.deref. rewrite Hl.
    eexists. split; [done|]. constructor.
    rewrite (Forall2_length _ _ _ Hi).
    destruct (String.eqb k "length"); constructor.
Qed.

Lemma repr_map_from {A B : Type} (R : A → B → Prop)
    (f : Heap.hval → nat → Heap.M A) (g : value → nat → result B) :
  (∀ h v i, Heap.repr σ h v →
     ∃ r, f h i σ = (r, σ) ∧ Heap.repr_result R r (g v i)) →
  ∀ hitems items, Forall2 (Heap.repr σ) hitems items →
  ∀ i, ∃ r, Heap.map_from f i hitems σ = (r, σ) ∧
            Heap.repr_result (Forall2 R) r (map_from g i items).
Proof.
  intros Hfg hitems items H.
  induction H as [|h v hitems items Hhv _ IH]; intros i; simpl.
  - eexists. split; [done|]. by repeat constructor.
  - destruct (Hfg h v i Hhv) as (r & Hr & Hrel).
    unfold mbind at 1, Heap.M_bind at 1. rewrite Hr.
    destruct Hrel as [a b Hab|e]; simpl; [|eexists; split; [done|constructor]].
    destruct (IH (S i)) as (rs & Hrs & Hrels).
    unfold mbind at 1, Heap.M_bind at 1. rewrite Hrs.
    destruct Hrels as [ys ys' Hys|e]; simpl; eexists; (split; [done|]).
    + by repeat constructor.
    + constructor.
Qed.

Variable styles : string → option string.

Lemma repr_style (k : string) : Heap.repr σ (Heap.style styles k) (style styles k).
Proof. unfold Heap.style, style. destruct (styles k); constructor. Qed.

(** Where the props hold plain data, the component over the store
    returns what the component over values returns. *)
Lemma Heap_VocabTable_agrees
    (hprops : list (string * Heap.hval)) (props : list (string * value)) :
  Heap.repr_fields σ hprops props →
  ∃ r, Heap.VocabTable styles hprops σ = (r, σ) ∧
       Heap.repr_result (Heap.repr_node σ) r (VocabTable styles props).
Proof.
  intros Hp. pose proof (repr_own _ _ "vocabulary" Hp) as Hv.
  unfold Heap.VocabTable, VocabTable.
  rewrite (repr_truthy _ _ Hv).
  set (hv := Heap.own hprops "vocabulary") in *.
  set (v := own props "vocabulary") in *.
  assert (Hguard : ∃ r,
    (if negb (truthy v) then mret true
     else len ← Heap.get hv "length"; mret (Heap.strict_eq_num len 0)) σ = (r, σ) ∧
    Heap.repr_result eq r
      (if negb (truthy v) then Ok true
       else len ← get v "length"; Ok (strict_eq_num len 0))).
  { destruct (negb (truthy v)); [eexists; split; [done|by constructor]|].
    destruct (repr_get _ _ "length" Hv) as (r & Hr & Hrel).
    unfold mbind at 1, Heap.M_bind at 1. rewrite Hr.
    destruct Hrel as [hlen len Hlen|e]; simpl; eexists; (split; [done|]).
    - constructor. by apply repr_strict_eq_num.
    - constructor. }
  destruct Hguard as (r & Hr & Hrel).
  unfold mbind at 1, Heap.M_bind at 1. rewrite Hr.
  destruct Hrel as [b ? <-|e]; simpl; [|eexists; split; [done|constructor]].
  destruct b; [eexists; split; [done|by repeat constructor]|].
  assert (Hrows : ∃ r,
    Heap.array_map hv (λ entry index,
      german ← Heap.get entry "german";
      english ← Heap.get entry "english";
      notes ← Heap.get entry "notes";
      mret (Elem "tr" [("key", Heap.HNum (Z.of_nat index));
                       ("className", Heap.style styles "vocabRow")]
              [ Elem "td" [("className", Heap.style styles "germanWord")] [Expr german];
                Elem "td" [("className", Heap.style styles "englishWord")] [Expr english];
                Elem "td" [("className", Heap.style styles "notes")] [Expr notes] ])) σ
      = (r, σ) ∧
    Heap.repr_result (Forall2 (Heap.repr_node σ)) r (array_map v (row_of styles))).
  { destruct Hv as [| | | | |l hfields fields Hl Hf|l hitems items Hl Hi]; simpl;
      try (eexists; split; [done|constructor]).
    - unfold mbind, Heap.M_bind, Heap.deref. rewrite Hl.
      eexists; split; [done|constructor].
    - unfold mbind at 1, Heap.M_bind at 1, Heap.deref. rewrite Hl.
      apply repr_map_from; [|done].
      intros h w i Hw. unfold row_of.
      destruct (repr_get _ _ "german" Hw) as (rg & Hrg & Hg).
      unfold mbind at 1, Heap.M_bind at 1. rewrite Hrg.
      destruct Hg as [hg g Hg|x]; simpl; [|eexists; split; [done|constructor]].
      destruct (repr_get _ _ "english" Hw) as (re & Hre & He).
      unfold mbind at 1, Heap.M_bind at 1. rewrite Hre.
      destruct He as [he e He|x]; simpl; [|eexists; split; [done|constructor]].
      destruct (repr_get _ _ "notes" Hw) as (rn & Hrn & Hn).
      unfold mbind at 1, Heap.M_bind at 1. rewrite Hrn.
      destruct Hn as [hn n Hn|x]; simpl; [|eexists; split; [done|constructor]].
      eexists; split; [done|].
      repeat first [done | apply repr_style | constructor | split]. }
  destruct Hrows as (rs & Hrs & Hrels).
  unfold mbind at 1, Heap.M_bind at 1. rewrite Hrs.
  change (array_map v _) with (array_map v (row_of styles)).
  destruct Hrels as [hrows rows' Hrows|e]; simpl; eexists; (split; [done|]); [|constructor].
  repeat first [done | apply repr_style | constructor | split].
Qed.

End Agreement.

(** C7.  Rendering reads the store and writes nothing: the store after
    a call is the store before it, so a second call on the same props
    finds the same store and returns the same outcome as the first; and
    where the props hold plain data, that outcome is the one the
    component gives for the data, whatever else the store holds. *)
Theorem VocabTable_stateless (styles : string → option string)
    (hprops : list (string * Heap.hval)) (σ : Heap.store) :
  let first := Heap.VocabTable styles hprops σ in
  let second := Heap.VocabTable styles hprops first.2 in
  first.2 = σ ∧ second.2 = σ ∧ second.1 = first.1 ∧
  ∀ props : list (string * value),
    Heap.repr_fields σ hprops props →
    Heap.repr_result (Heap.repr_node σ) first.1 (VocabTable styles props).
Proof.
  intros first second.
  assert (H1 : first.2 = σ) by apply read_only_VocabTable.
  assert (H2 : second = first) by (unfold second; by rewrite H1).
  rewrite H2. repeat split; try done.
  intros props Hp.
  destruct (Heap_VocabTable_agrees σ styles hprops props Hp) as (r & Hr & Hrel).
  unfold first. by rewrite Hr.
Qed.

(** *** The properties at the sample data

    Each property that has a premise, at an input that meets it. *)

(** The scenario's list: two rows, the second one without notes. *)

Lemma VocabTable_rows_verbatim_witness :
  own sample_props "vocabulary" = VArr (VObj <$> [haus; gehen]) ∧
  [haus; gehen] ≠ [] ∧
  ∃ out row,
    VocabTable css sample_props = Ok out ∧
    length (rows out) = 2 ∧
    rows out !! 1 = Some row ∧
    text_content <$> cells row = [Ok "gehen"; Ok "to go"; Ok ""].
Proof.
  assert (Hv : own sample_props "vocabulary" = VArr (VObj <$> [haus; gehen])) by reflexivity.
  assert (Hne : [haus; gehen] ≠ []) by discriminate.
  split; [exact Hv|]. split; [exact Hne|].
  destruct (VocabTable_rows_verbatim css sample_props [haus; gehen] Hv Hne)
    as (out & Hout & Hlen & Hrows).
  destruct (Hrows 1 gehen eq_refl) as (row & Hrow & _ & Htext).
  exists out, row. split; [exact Hout|]. split; [exact Hlen|]. split; [exact Hrow|].
  apply (Htext "gehen" "to go" eq_refl eq_refl). reflexivity.
Defined.

(** No [vocabulary] prop at all, and an empty list. *)
Lemma VocabTable_no_data_witness :
  absent_or_empty [] ∧
  absent_or_empty [("vocabulary", VArr [])] ∧
  VocabTable css [] = Ok (Elem "p" [] [Text "No vocabulary data available."]) ∧
  VocabTable css [("vocabulary", VArr [])] = VocabTable css [].
Proof.
  assert (H1 : absent_or_empty []) by (left; reflexivity).
  assert (H2 : absent_or_empty [("vocabulary", VArr [])]) by (do 3 right; reflexivity).
  split; [exact H1|]. split; [exact H2|].
  destruct (VocabTable_no_data css [] [("vocabulary", VArr [])] H1 H2) as (Hout & Hsame & _).
  split; [exact Hout | exact Hsame].
Defined.

(** The header over the scenario's list. *)
Lemma VocabTable_header_witness :
  own sample_props "vocabulary" = VArr (VObj <$> [haus; gehen]) ∧
  [haus; gehen] ≠ [] ∧
  ∃ out,
    VocabTable css sample_props = Ok out ∧
    text_content <$> header out = [Ok "German"; Ok "English"; Ok "Notes"].
Proof.
  assert (Hv : own sample_props "vocabulary" = VArr (VObj <$> [haus; gehen])) by reflexivity.
  assert (Hne : [haus; gehen] ≠ []) by discriminate.
  split; [exact Hv|]. split; [exact Hne|].
  destruct (VocabTable_header css sample_props [haus; gehen] Hv Hne)
    as (out & Hout & _ & Htext & _).
  exists out. split; [exact Hout | exact Htext].
Defined.

(** An entry with [english] alone: its notes cell shows nothing. *)
Lemma VocabTable_missing_fields_witness :
  own malformed_props "vocabulary" = VArr (VObj <$> [[("english", VStr "house")]; []]) ∧
  [[("english", VStr "house")]; []] ≠ ([] : list (list (string * value))) ∧
  ∃ out row cell,
    VocabTable css malformed_props = Ok out ∧
    length (rows out) = 2 ∧
    rows out !! 0 = Some row ∧
    cells row !! 2 = Some cell ∧
    text_content cell = Ok "".
Proof.
  assert (Hv : own malformed_props "vocabulary" =
               VArr (VObj <$> [[("english", VStr "house")]; []])) by reflexivity.
  assert (Hne : [[("english", VStr "house")]; []] ≠ ([] : list (list (string * value))))
    by discriminate.
  split; [exact Hv|]. split; [exact Hne|].
  destruct (VocabTable_missing_fields css malformed_props _ Hv Hne)
    as (_ & _ & out & Hout & _ & Hlen & Hrows).
  destruct (Hrows 0 [("english", VStr "house")] eq_refl) as (row & Hrow & _ & Hcells).
  destruct (Hcells 2 "notes" eq_refl eq_refl) as (cell & Hcell & _ & Htext).
  exists out, row, cell.
  split; [exact Hout|]. split; [exact Hlen|]. split; [exact Hrow|].
  split; [exact Hcell | exact Htext].
Defined.

(** The list of the one entry "Haus". *)
Lemma VocabTable_singleton_witness :
  own [("vocabulary", VArr [VObj haus])] "vocabulary" = VArr [VObj haus] ∧
  ∃ out row,
    VocabTable css [("vocabulary", VArr [VObj haus])] = Ok out ∧
    out ≠ fallback ∧
    rows out = [row] ∧
    kids <$> cells row = [[Expr (VStr "Haus")]; [Expr (VStr "house")]; [Expr (VStr "neuter")]].
Proof.
  split; [reflexivity|].
  destruct (VocabTable_singleton css [("vocabulary", VArr [VObj haus])] haus eq_refl)
    as (out & row & Hout & Hnot & _ & Hrows & Hcells).
  exists out, row. split; [exact Hout|]. split; [exact Hnot|].
  split; [exact Hrows | exact Hcells].
Defined.

(** The keys of the scenario's two rows. *)
Lemma VocabTable_row_keys_witness :
  own sample_props "vocabulary" = VArr (VObj <$> [haus; gehen]) ∧
  [haus; gehen] ≠ [] ∧
  ∃ out,
    VocabTable css sample_props = Ok out ∧
    attr "key" <$> rows out = [Some (VNum 0); Some (VNum 1)].
Proof.
  assert (Hv : own sample_props "vocabulary" = VArr (VObj <$> [haus; gehen])) by reflexivity.
  assert (Hne : [haus; gehen] ≠ []) by discriminate.
  split; [exact Hv|]. split; [exact Hne|].
  destruct (VocabTable_row_keys css sample_props [haus; gehen] Hv Hne)
    as (out & Hout & Hlen & Hkeys).
  exists out. split; [exact Hout|].
  destruct (rows out) as [|r0 [|r1 [|r2 rest]]]; try discriminate Hlen.
  simpl. by rewrite (Hkeys 0 r0 eq_refl), (Hkeys 1 r1 eq_refl).
Defined.

(** The scenario's list with and without fields the table does not show. *)
Lemma VocabTable_noninterference_witness :
  Forall2 (λ fields fields', ∀ k, k ∈ columns → own fields k = own fields' k)
    [haus; gehen]
    [ ("id", VNum 7) :: haus;
      [("english", VStr "to go"); ("level", VStr "A1"); ("german", VStr "gehen")] ] ∧
  VocabTable css sample_props = VocabTable css sample_props_extra.
Proof.
  assert (Hagree :
    Forall2 (λ fields fields', ∀ k, k ∈ columns → own fields k = own fields' k)
      [haus; gehen]
      [ ("id", VNum 7) :: haus;
        [("english", VStr "to go"); ("level", VStr "A1"); ("german", VStr "gehen")] ]).
  { repeat constructor; intros k Hk;
      repeat (apply elem_of_cons in Hk as [->|Hk]; [reflexivity|]);
      by apply elem_of_nil in Hk. }
  split; [exact Hagree|].
  exact (VocabTable_noninterference css sample_props sample_props_extra
           [haus; gehen]
           [ ("id", VNum 7) :: haus;
             [("english", VStr "to go"); ("level", VStr "A1"); ("german", VStr "gehen")] ]
           eq_refl eq_refl Hagree).
Defined.

(** The pair "Haus", "house". *)
Lemma VocabWord_pair_witness :
  own word_props "german" = VStr "Haus" ∧
  own word_props "english" = VStr "house" ∧
  ∃ tooltip,
    kids (VocabWord css word_props) = [Expr (VStr "Haus"); tooltip] ∧
    attr "title" (VocabWord css word_props) = Some (VStr "house") ∧
    text_content tooltip = Ok "house".
Proof.
  split; [reflexivity|]. split; [reflexivity|].
  destruct (VocabWord_pair css word_props "Haus" "house" eq_refl eq_refl)
    as (tooltip & Hkids & _ & Htitle & _ & _ & _ & _ & Htext).
  exists tooltip. split; [exact Hkids|]. split; [exact Htitle | exact Htext].
Defined.

(** Neither [german] nor [english] given. *)
Lemma VocabWord_absent_witness :
  text_or_absent (own [] "german") ∧
  text_or_absent (own [] "english") ∧
  text_content (VocabWord css []) = Ok "" ∧
  attr "title" (VocabWord css []) ≫= attr_text = None.
Proof.
  assert (H : ∀ k, text_or_absent (own [] k)) by (intros k; left; reflexivity).
  split; [apply H|]. split; [apply H|].
  destruct (VocabWord_absent css [] (H "german") (H "english"))
    as (first & tooltip & shown & _ & _ & Hshown & _ & Henglish & Hempty).
  rewrite (Hempty eq_refl eq_refl) in Hshown. split; [exact Hshown|].
  exact (proj2 (Henglish eq_refl)).
Defined.

(** The scenario's list held in a store. *)
Lemma VocabTable_stateless_witness :
  Heap.repr_fields sample_store sample_hprops sample_props ∧
  (Heap.VocabTable css sample_hprops sample_store).2 = sample_store ∧
  Heap.repr_result (Heap.repr_node sample_store)
    (Heap.VocabTable css sample_hprops sample_store).1
    (VocabTable css sample_props).
Proof.
  assert (Hp : Heap.repr_fields sample_store sample_hprops sample_props).
  { constructor; [|constructor]. split; [reflexivity|].
    eapply Heap.repr_arr; [reflexivity|].
    constructor; [|constructor; [|constructor]].
    - eapply Heap.repr_obj; [reflexivity|].
      repeat first [constructor | split | reflexivity].
    - eapply Heap.repr_obj; [reflexivity|].
      repeat first [constructor | split | reflexivity]. }
  split; [exact Hp|].
  destruct (VocabTable_stateless css sample_hprops sample_store) as (Hstore & _ & _ & Hrel).
  split; [exact Hstore | exact (Hrel sample_props Hp)].
Defined.

(** *** At the edge of the inputs *)

(** An entry that is [null] or [undefined] is no record: reading its
    [german] throws. *)
Example VocabTable_null_entry :
  VocabTable css [("vocabulary", VArr [VObj haus; VNull])] = Throw TypeError.
Proof. reflexivity. Qed.

(** A non-empty string is truthy and has a [length], but no [map]. *)
Example VocabTable_string :
  VocabTable css [("vocabulary", VStr "Haus")] = Throw TypeError.
Proof. reflexivity. Qed.

(** An object whose [length] is [0] passes for no data. *)
Example VocabTable_length_zero :
  VocabTable css [("vocabulary", VObj [("length", VNum 0)])] = Ok fallback.
Proof. reflexivity. Qed.

(** A field that holds an object reaches the cell as it is; React then
    refuses to show it. *)
Example VocabTable_object_field :
  ∃ out row cell,
    VocabTable css [("vocabulary", VArr [VObj [("german", VObj [])]])] = Ok out ∧
    rows out = [row] ∧ cells row !! 0 = Some cell ∧
    text_content cell = Throw InvalidChild.
Proof. do 3 eexists. repeat split. Qed.

(** Over the sample store the component returns the sample table. *)
Example Heap_VocabTable_sample :
  ∃ out, Heap.VocabTable css sample_hprops sample_store = (Ok out, sample_store) ∧
         length (rows out) = 2.
Proof. eexists. split; reflexivity. Qed.

(** ** 8. Further properties of [VocabTable] *)

(** *** What an outcome tells about the input *)

Lemma row_of_nullish (styles : string → option string) (entry : value) (index : nat) :
  nullish entry = true → row_of styles entry index = Throw TypeError.
Proof. by destruct entry. Qed.

Lemma row_of_Ok_defined (styles : string → option string)
    (entry : value) (index : nat) (row : node value) :
  row_of styles entry index = Ok row → nullish entry = false.
Proof.
  intros H. destruct (nullish entry) eqn:Hn; [|done].
  by rewrite (row_of_nullish _ _ _ Hn) in H.
Qed.

(** [map] stops at the first entry that is [undefined] or [null]. *)
Lemma map_from_nullish (styles : string → option string) (items : list value) :
  Exists (λ entry, nullish entry = true) items →
  ∀ i, map_from (row_of styles) i items = Throw TypeError.
Proof.
  induction items as [|x rest IH]; intros H i; [by apply Exists_nil in H|].
  simpl. destruct (nullish x) eqn:Hx.
  - by rewrite (row_of_nullish _ _ _ Hx).
  - destruct (row_of_defined styles x i Hx) as (g & e & n & _ & _ & _ & ->).
    rewrite bind_Ok. apply Exists_cons in H as [H|H]; [congruence|].
    by rewrite (IH H).
Qed.

Lemma map_from_rows (styles : string → option string) (items : list value)
    (i : nat) (rs : list (node value)) :
  map_from (row_of styles) i items = Ok rs →
  Forall (λ entry, nullish entry = false) items ∧
  Forall is_tr rs ∧
  length rs = length items ∧
  ∀ (j : nat) (entry : value), items !! j = Some entry →
    ∃ g e n, get entry "german" = Ok g ∧ get entry "english" = Ok e ∧
             get entry "notes" = Ok n ∧ rs !! j = Some (tr styles (i + j) g e n).
Proof.
  intros H. destruct (map_from_Ok_inv _ _ _ _ H) as [Hlen Hnth].
  assert (Hrow : ∀ j entry, items !! j = Some entry →
    ∃ g e n, get entry "german" = Ok g ∧ get entry "english" = Ok e ∧
             get entry "notes" = Ok n ∧ rs !! j = Some (tr styles (i + j) g e n)).
  { intros j entry Hj. destruct (Hnth j entry Hj) as (row & Hrow & Hf).
    apply row_of_Ok_inv in Hf as (g & e & n & ? & ? & ? & ->). by exists g, e, n. }
  split; [|split; [|done]].
  - apply Forall_lookup. intros j entry Hj.
    destruct (Hnth j entry Hj) as (row & _ & Hf). by eapply row_of_Ok_defined.
  - apply Forall_lookup. intros j row Hj.
    destruct (lookup_lt_is_Some_2 items j) as [entry He].
    { rewrite <- Hlen. by eapply lookup_lt_Some. }
    destruct (Hrow j entry He) as (g & e & n & _ & _ & _ & Hr).
    rewrite Hj in Hr. injection Hr as ->. unfold is_tr, tr. eauto.
Qed.

(** A returned node is the no-data message, or the table of a
    non-empty array. *)
Lemma VocabTable_Ok_inv (styles : string → option string)
    (props : list (string * value)) (out : node value) :
  VocabTable styles props = Ok out →
  (no_data (own props "vocabulary") = true ∧ out = fallback) ∨
  ∃ items rs,
    own props "vocabulary" = VArr items ∧ items ≠ [] ∧
    map_from (row_of styles) 0 items = Ok rs ∧ out = table styles rs.
Proof.
  rewrite VocabTable_branch. destruct (no_data _) eqn:Hnd.
  - intros [= <-]. by left.
  - intros H. right. apply bind_Ok_inv in H as (rs & Hrs & [= <-]).
    destruct (own props "vocabulary") as [| | | | | |items]; try discriminate Hrs.
    exists items, rs. repeat split; try done.
    intros ->. by rewrite no_data_array in Hnd.
Qed.

Lemma string_length_empty (s : string) : String.length s = 0 → s = "".
Proof. by destruct s. Qed.

Lemma no_data_iff (v : value) :
  no_data v = true ↔
  truthy v = false ∨ v = VArr [] ∨
  ∃ fields, v = VObj fields ∧ own fields "length" = VNum 0.
Proof.
  split.
  - destruct v as [| |b|n|s|fields|items]; unfold no_data; simpl; auto.
    + destruct b; [discriminate | auto].
    + destruct (n =? 0)%Z; [auto | discriminate].
    + destruct (String.eqb s "") eqn:Hs; [auto|]. simpl. intros H.
      apply Z.eqb_eq, Nat2Z.inj_iff with (m := 0), string_length_empty in H.
      subst s. discriminate Hs.
    + intros H. right; right. exists fields. split; [done|].
      destruct (own fields "length") as [| | |n| | |]; try discriminate H.
      simpl in H. apply Z.eqb_eq in H. by subst n.
    + destruct items; [auto | discriminate].
  - intros [H|[->|(fields & -> & H)]]; [|done|].
    + unfold no_data. by rewrite H.
    + unfold no_data. simpl. by rewrite H.
Qed.

Section VocabTable_outcomes.

Variable styles : string → option string.

(** X1.  Over an array, [VocabTable] throws exactly when some entry is
    [undefined] or [null], and the exception is a TypeError; it returns
    a node exactly when no entry is. *)
Theorem VocabTable_array_throws (props : list (string * value)) (items : list value) :
  own props "vocabulary" = VArr items →
  (VocabTable styles props = Throw TypeError
     ↔ Exists (λ entry, nullish entry = true) items) ∧
  ((∃ out, VocabTable styles props = Ok out)
     ↔ Forall (λ entry, nullish entry = false) items).
Proof.
  intros Hv.
  assert (Hok : Forall (λ entry, nullish entry = false) items →
                ∃ out, VocabTable styles props = Ok out).
  { intros Hall. destruct items as [|x rest].
    - exists fallback. by rewrite VocabTable_branch, Hv.
    - destruct (VocabTable_table styles props (x :: rest) Hv) as (rs & Hout & _); eauto. }
  assert (Hthrow : Exists (λ entry, nullish entry = true) items →
                   VocabTable styles props = Throw TypeError).
  { intros Hex. assert (items ≠ []) by (intros ->; by apply Exists_nil in Hex).
    by rewrite (VocabTable_array styles props items), (map_from_nullish styles items Hex). }
  assert (Hdec : Forall (λ entry, nullish entry = false) items ∨
                 Exists (λ entry, nullish entry = true) items).
  { destruct (Forall_Exists_dec (λ entry, nullish entry = false)
                (λ entry, nullish entry = true)
                (λ entry, match nullish entry as b
                            return {b = false} + {b = true} with
                          | true => right eq_refl
                          | false => left eq_refl
                          end) items); auto. }
  split; split; try done.
  - intros H. destruct Hdec as [Hall|Hex]; [|done].
    destruct (Hok Hall) as [out Hout]. congruence.
  - intros [out Hout]. destruct Hdec as [Hall|Hex]; [done|].
    rewrite (Hthrow Hex) in Hout. discriminate.
Qed.

(** X2.  The no-data message is returned exactly for a falsy
    [vocabulary] ([undefined], [null], [false], [0], the empty string,
    or no such prop), for an empty array, and for an object whose own
    [length] is [0]. *)
Theorem VocabTable_fallback_iff (props : list (string * value)) :
  VocabTable styles props = Ok fallback ↔
  truthy (own props "vocabulary") = false ∨
  own props "vocabulary" = VArr [] ∨
  ∃ fields, own props "vocabulary" = VObj fields ∧ own fields "length" = VNum 0.
Proof.
  rewrite <- no_data_iff. split.
  - intros H. apply VocabTable_Ok_inv in H as [[H _]|(items & rs & _ & _ & _ & H)]; [done|].
    discriminate H.
  - intros H. by rewrite VocabTable_branch, H.
Qed.

(** X3.  The only exception [VocabTable] raises is a TypeError, and a
    table is returned for nothing but a non-empty array none of whose
    entries is [undefined] or [null]; the table then has one body row per
    entry. *)
Theorem VocabTable_table_only_for_arrays (props : list (string * value)) :
  (∀ e, VocabTable styles props = Throw e → e = TypeError) ∧
  (∀ out, VocabTable styles props = Ok out → out ≠ fallback →
     ∃ items,
       own props "vocabulary" = VArr items ∧ items ≠ [] ∧
       Forall (λ entry, nullish entry = false) items ∧
       length (rows out) = length items ∧
       header out ≠ []).
Proof.
  split.
  - intros e. rewrite VocabTable_branch.
    destruct (no_data _); [discriminate|].
    destruct (own props "vocabulary") as [| | | | | |items]; simpl; try by intros [= <-].
    destruct (map_from (row_of styles) 0 items) as [rs|e'] eqn:Hrs; [discriminate|].
    intros [= <-].
    destruct (Forall_Exists_dec (λ entry, nullish entry = false)
                (λ entry, nullish entry = true)
                (λ entry, match nullish entry as b
                            return {b = false} + {b = true} with
                          | true => right eq_refl
                          | false => left eq_refl
                          end) items) as [Hall|Hex].
    + destruct (map_from_total (row_of styles) items 0) as [rs Hrs'].
      { intros j x Hx. rewrite Forall_lookup in Hall.
        destruct (row_of_defined styles x (0 + j) (Hall _ _ Hx)) as (g & e & n & _ & _ & _ & ?).
        eauto. }
      congruence.
    + rewrite (map_from_nullish styles items Hex) in Hrs. congruence.
  - intros out Hout Hnot.
    apply VocabTable_Ok_inv in Hout as [[_ ->]|(items & rs & Hv & Hne & Hrs & ->)]; [done|].
    destruct (map_from_rows styles items 0 rs Hrs) as (Hall & Htr & Hlen & _).
    exists items. rewrite (rows_table styles rs Htr). by repeat split.
Qed.


End VocabTable_outcomes.

(** *** Lists that grow *)

Lemma map_from_app {V A : Type} (f : V → nat → result A) (xs ys : list V) :
  ∀ i : nat,
    map_from f i (xs ++ ys) =
      (rs ← map_from f i xs; rs' ← map_from f (i + length xs) ys; Ok ((rs ++ rs')%list)).
Proof.
  induction xs as [|x xs IH]; intros i; simpl.
  - rewrite Nat.add_0_r. by destruct (map_from f i ys).
  - destruct (f x i) as [y|e]; simpl; [|done].
    rewrite IH, Nat.add_succ_comm.
    destruct (map_from f (S i) xs) as [rs|e]; simpl; [|done].
    by destruct (map_from f (i + S (length xs)) ys).
Qed.

Lemma get_functional (v w w' : value) (k : string) :
  get v k = Ok w → get v k = Ok w' → w = w'.
Proof. congruence. Qed.

Section VocabTable_growth.

Variable styles : string → option string.

(** X5.  Entries added at the end leave the rows of the entries before
    them as they are, keys included: when the longer list renders, so
    does the shorter one, and its body rows are the first body rows of
    the longer one's table. *)
Theorem VocabTable_append (props props' : list (string * value))
    (items more : list value) (out' : node value) :
  own props "vocabulary" = VArr items →
  items ≠ [] →
  own props' "vocabulary" = VArr (items ++ more) →
  VocabTable styles props' = Ok out' →
  ∃ out tail,
    VocabTable styles props = Ok out ∧
    rows out' = (rows out ++ tail)%list ∧
    length tail = length more.
Proof.
  intros Hv Hne Hv' Hout'.
  rewrite (VocabTable_array styles props' (items ++ more) Hv') in Hout'
    by (by destruct items).
  apply bind_Ok_inv in Hout' as (rs' & Hrs' & [= <-]).
  pose proof Hrs' as Hall. apply map_from_rows in Hall as (_ & Htr' & _ & _).
  rewrite map_from_app in Hrs'.
  apply bind_Ok_inv in Hrs' as (rs & Hrs & H).
  apply bind_Ok_inv in H as (tail & Htail & [= <-]).
  exists (table styles rs), tail.
  rewrite (VocabTable_array styles props items Hv Hne), Hrs, bind_Ok.
  destruct (map_from_rows styles items 0 rs Hrs) as (_ & Htr & _ & _).
  destruct (map_from_rows styles more _ tail Htail) as (_ & _ & Hlen & _).
  by rewrite (rows_table styles _ Htr'), (rows_table styles _ Htr).
Qed.

(** X6.  An entry added in front moves every row one place down and
    gives it a new key: the row of the entry at place [i] has key [i]
    before and key [i + 1] after, with the same cells. *)
Theorem VocabTable_prepend (props props' : list (string * value))
    (first : value) (items : list value) (out out' : node value) :
  own props "vocabulary" = VArr items →
  own props' "vocabulary" = VArr (first :: items) →
  VocabTable styles props = Ok out →
  VocabTable styles props' = Ok out' →
  length (rows out') = S (length (rows out)) ∧
  ∀ (i : nat) (row : node value),
    rows out !! i = Some row →
    ∃ row',
      rows out' !! S i = Some row' ∧
      cells row' = cells row ∧
      attr "key" row = Some (VNum (Z.of_nat i)) ∧
      attr "key" row' = Some (VNum (Z.of_nat (S i))).
Proof.
  intros Hv Hv' Hout Hout'.
  apply VocabTable_Ok_inv in Hout' as [[Hnd _]|(items' & rs' & Hv'' & _ & Hrs' & ->)].
  { by rewrite Hv' in Hnd. }
  rewrite Hv' in Hv''. injection Hv'' as <-.
  destruct (map_from_rows styles _ 0 rs' Hrs') as (_ & Htr' & Hlen' & Hnth').
  rewrite (rows_table styles _ Htr').
  apply VocabTable_Ok_inv in Hout as [[Hnd ->]|(items' & rs & Hv'' & _ & Hrs & ->)].
  { rewrite Hv, no_data_array in Hnd. apply bool_decide_eq_true in Hnd. subst items.
    split; [by rewrite Hlen'|]. intros i row Hi. by destruct i. }
  rewrite Hv in Hv''. injection Hv'' as <-.
  destruct (map_from_rows styles _ 0 rs Hrs) as (_ & Htr & Hlen & Hnth).
  rewrite (rows_table styles _ Htr).
  split; [by rewrite Hlen', Hlen|].
  intros i row Hi.
  destruct (lookup_lt_is_Some_2 items i) as [entry He].
  { rewrite <- Hlen. by eapply lookup_lt_Some. }
  destruct (Hnth i entry He) as (g & e & n & Hg & Hen & Hn & Hr).
  destruct (Hnth' (S i) entry He) as (g' & e' & n' & Hg' & Hen' & Hn' & Hr').
  rewrite (get_functional _ _ _ _ Hg' Hg), (get_functional _ _ _ _ Hen' Hen),
    (get_functional _ _ _ _ Hn' Hn) in Hr'.
  rewrite Hi in Hr. injection Hr as ->.
  eexists. split; [exact Hr'|]. by repeat split.
Qed.

(** X7.  The class names of a returned table are those of the CSS
    module: [vocabContainer] on the container, [vocabTable] on the
    table, the three header classes on the header cells, and on every
    body row [vocabRow], with [germanWord], [englishWord] and [notes] on
    its cells. *)
Theorem VocabTable_class_names (props : list (string * value)) (out : node value) :
  VocabTable styles props = Ok out →
  out ≠ fallback →
  attr "className" out = Some (style styles "vocabContainer") ∧
  attr "className" <$> sel "table" [out] = [Some (style styles "vocabTable")] ∧
  attr "className" <$> header out =
    [ Some (style styles "germanHeader"); Some (style styles "englishHeader");
      Some (style styles "notesHeader") ] ∧
  ∀ row : node value, row ∈ rows out →
    attr "className" row = Some (style styles "vocabRow") ∧
    attr "className" <$> cells row =
      [ Some (style styles "germanWord"); Some (style styles "englishWord");
        Some (style styles "notes") ].
Proof.
  intros Hout Hnot.
  apply VocabTable_Ok_inv in Hout as [[_ ->]|(items & rs & Hv & _ & Hrs & ->)]; [done|].
  destruct (map_from_rows styles _ 0 rs Hrs) as (_ & Htr & Hlen & Hnth).
  rewrite (rows_table styles _ Htr).
  repeat split; try done.
  - apply list_elem_of_lookup in H as [i Hi].
    destruct (lookup_lt_is_Some_2 items i) as [entry He].
    { rewrite <- Hlen. by eapply lookup_lt_Some. }
    destruct (Hnth i entry He) as (g & e & n & _ & _ & _ & Hr).
    rewrite Hi in Hr. by injection Hr as ->.
  - apply list_elem_of_lookup in H as [i Hi].
    destruct (lookup_lt_is_Some_2 items i) as [entry He].
    { rewrite <- Hlen. by eapply lookup_lt_Some. }
    destruct (Hnth i entry He) as (g & e & n & _ & _ & _ & Hr).
    rewrite Hi in Hr. by injection Hr as ->.
Qed.

End VocabTable_growth.

(** *** The CSS module decides class names and nothing else *)

(** The CSS module has no part in whether a row is built, nor in what
    its cells hold. *)
Lemma row_of_styles (x : value) (i : nat) :
  (∃ e, ∀ styles, row_of styles x i = Throw e) ∨
  (∃ g e n, ∀ styles, row_of styles x i = Ok (tr styles i g e n)).
Proof.
  unfold row_of.
  destruct (get x "german") as [g|e]; [|left; by exists e].
  destruct (get x "english") as [e|e']; [|left; by exists e'].
  destruct (get x "notes") as [n|e']; [|left; by exists e'].
  right. by exists g, e, n.
Qed.

Lemma unstyled_rows (styles styles' : string → option string) (items : list value) :
  ∀ i : nat,
    (map_from (row_of styles) i items ≫= λ rs, Ok (List.map unstyled rs)) =
    (map_from (row_of styles') i items ≫= λ rs, Ok (List.map unstyled rs)).
Proof.
  induction items as [|x rest IH]; intros i; [done|].
  specialize (IH (S i)). cbn [map_from].
  destruct (row_of_styles x i) as [[e H]|(g & e & n & H)]; rewrite !H; [done|].
  rewrite !bind_Ok.
  destruct (map_from (row_of styles) (S i) rest) as [rs|e1],
    (map_from (row_of styles') (S i) rest) as [rs'|e2]; try done.
  injection IH as IH. simpl. by rewrite IH.
Qed.

(** X8.  Two CSS modules give the same output apart from class names:
    the same exception, or nodes that are equal once their [className]
    attributes are taken off. *)
Theorem VocabTable_styles_only_class_names
    (styles styles' : string → option string) (props : list (string * value)) :
  (VocabTable styles props ≫= λ out, Ok (unstyled out)) =
  (VocabTable styles' props ≫= λ out, Ok (unstyled out)).
Proof.
  rewrite !VocabTable_branch. destruct (no_data _); [done|].
  destruct (own props "vocabulary") as [| | | | | |items]; try done.
  pose proof (unstyled_rows styles styles' items 0) as H.
  unfold array_map, mbind, result_bind in *.
  destruct (map_from (row_of styles) 0 items) as [rs|e1],
    (map_from (row_of styles') 0 items) as [rs'|e2]; simpl in *; try congruence.
Qed.

(** *** What React can show *)

Lemma shows_list (tag : string) (attrs : list (string * value)) (ns : list (node value)) :
  shows (Elem tag attrs ns) ↔ Forall shows ns.
Proof.
  unfold shows. induction ns as [|x ns IH]; simpl.
  - split; [constructor | eauto].
  - rewrite Forall_cons, <- IH. simpl.
    destruct (text_content x) as [s|e]; simpl.
    + split.
      * intros [t H]. apply bind_Ok_inv in H as (u & Hu & _). eauto.
      * intros [_ [u Hu]]. rewrite Hu. simpl. eauto.
    + split; [by intros [t H] | by intros [[t H] _]].
Qed.

Lemma shows_Nodes (ns : list (node value)) : shows (Nodes ns) ↔ Forall shows ns.
Proof. apply (shows_list "" [] ns). Qed.

Lemma shows_tr (styles : string → option string) (index : nat) (g e n : value) :
  shows (tr styles index g e n) ↔ valid_child g ∧ valid_child e ∧ valid_child n.
Proof.
  unfold tr. rewrite shows_list, !Forall_cons, !shows_list, !Forall_cons.
  unfold shows, valid_child. simpl. rewrite !Forall_nil. tauto.
Qed.

Lemma shows_table (styles : string → option string) (rs : list (node value)) :
  shows (table styles rs) ↔ Forall shows rs.
Proof.
  unfold table.
  rewrite shows_list, Forall_singleton, shows_list, Forall_cons, Forall_singleton.
  rewrite (shows_list "tbody"), Forall_singleton, shows_Nodes.
  split; [tauto|]. intros H. split; [|done]. by eexists.
Qed.

(** X9.  React can show the table of a non-empty list of records exactly
    when it can show the [german], [english] and [notes] value of every
    entry: the table puts nothing else in the way, and takes nothing out
    of it. *)
Theorem VocabTable_shows_iff (styles : string → option string)
    (props : list (string * value)) (entries : list (list (string * value))) :
  own props "vocabulary" = VArr (VObj <$> entries) →
  entries ≠ [] →
  ∃ out,
    VocabTable styles props = Ok out ∧
    (shows out ↔
     Forall (λ fields, ∀ k, k ∈ columns → valid_child (own fields k)) entries).
Proof.
  intros Hv Hne.
  destruct (VocabTable_table styles props (VObj <$> entries) Hv)
    as (rs & Hout & _ & Hlen & Hnth).
  { by destruct entries. }
  { apply Forall_record. }
  exists (table styles rs). split; [done|].
  rewrite shows_table, !Forall_lookup. rewrite length_fmap in Hlen.
  assert (Hrow : ∀ i fields, entries !! i = Some fields →
    rs !! i = Some (tr styles i (own fields "german") (own fields "english")
                      (own fields "notes"))).
  { intros i fields Hi. destruct (Hnth i (VObj fields)) as (g & e & n & Hg & He & Hn & Hr).
    { by rewrite list_lookup_fmap, Hi. }
    rewrite get_record in Hg, He, Hn. by injection Hg as <-; injection He as <-; injection Hn as <-. }
  split.
  - intros H i fields Hi k Hk. specialize (H i _ (Hrow i fields Hi)).
    apply shows_tr in H as (Hg & He & Hn).
    unfold columns in Hk.
    repeat (apply elem_of_cons in Hk as [->|Hk]; [done|]). by apply elem_of_nil in Hk.
  - intros H i row Hi.
    destruct (lookup_lt_is_Some_2 entries i) as [fields Hf].
    { rewrite <- Hlen. by eapply lookup_lt_Some. }
    rewrite (Hrow i fields Hf) in Hi. injection Hi as <-.
    apply shows_tr. unfold columns in H.
    repeat split; apply (H i fields Hf); set_solver.
Qed.

(** X10.  React can show the inline fragment exactly when it can show
    both values, and the fragment's text is then the text of [german]
    followed by the text of [english]. *)
Theorem VocabWord_shows_iff (styles : string → option string)
    (props : list (string * value)) :
  (shows (VocabWord styles props) ↔
   valid_child (own props "german") ∧ valid_child (own props "english")) ∧
  ∀ g e : string,
    child_text (own props "german") = Ok g →
    child_text (own props "english") = Ok e →
    text_content (VocabWord styles props) = Ok (g +:+ e).
Proof.
  split.
  - unfold VocabWord. rewrite shows_list, Forall_cons, Forall_singleton, shows_list,
      Forall_singleton. by unfold shows, valid_child.
  - intros g e Hg He. unfold VocabWord. simpl. rewrite Hg, He. simpl.
    by rewrite !append_empty_r.
Qed.

(** *** What a call reads of the store *)

Lemma heap_bind_fst {A B : Type} (m : Heap.M A) (f : A → Heap.M B) (σ : Heap.store) :
  Heap.read_only m →
  (m ≫= f) σ =
    match (m σ).1 with
    | Ok a => f a σ
    | Throw e => (Throw e, σ)
    end.
Proof.
  intros Hm. unfold mbind, Heap.M_bind. specialize (Hm σ).
  destruct (m σ) as [[a|e] σ1]; simpl in *; by subst σ1.
Qed.

(** A member access reads the object referred to, and nothing else. *)
Lemma heap_get_agree (v : Heap.hval) (k : string) (σ σ' : Heap.store) :
  (∀ l, v = Heap.HRef l → σ !! l = σ' !! l) →
  (Heap.get v k σ).1 = (Heap.get v k σ').1.
Proof.
  intros H. destruct v as [| | | | |l]; try done. simpl.
  rewrite !heap_bind_fst by apply read_only_deref.
  unfold Heap.deref. rewrite <- (H l eq_refl).
  by destruct (σ !! l) as [[fields|items]|].
Qed.

Lemma heap_map_from_agree {A : Type} (f : Heap.hval → nat → Heap.M A)
    (items : list Heap.hval) (σ σ' : Heap.store) :
  (∀ x i, Heap.read_only (f x i)) →
  (∀ x i, x ∈ items → (f x i σ).1 = (f x i σ').1) →
  ∀ i, (Heap.map_from f i items σ).1 = (Heap.map_from f i items σ').1.
Proof.
  intros Hro. induction items as [|x rest IH]; intros Hf i; simpl; [done|].
  rewrite !heap_bind_fst by apply Hro.
  rewrite <- (Hf x i) by set_solver.
  destruct (f x i σ).1 as [y|e]; [|done].
  rewrite !heap_bind_fst by (by apply read_only_map_from).
  rewrite <- IH by (intros; apply Hf; set_solver).
  by destruct (Heap.map_from f (S i) rest σ).1.
Qed.

Lemma heap_array_map_agree {A : Type} (v : Heap.hval) (f : Heap.hval → nat → Heap.M A)
    (σ σ' : Heap.store) :
  (∀ x i, Heap.read_only (f x i)) →
  (∀ l, v = Heap.HRef l →
     σ !! l = σ' !! l ∧
     ∀ items x i, σ !! l = Some (Heap.Arr items) → x ∈ items →
       (f x i σ).1 = (f x i σ').1) →
  (Heap.array_map v f σ).1 = (Heap.array_map v f σ').1.
Proof.
  intros Hro H. destruct v as [| | | | |l]; try done. simpl.
  destruct (H l eq_refl) as [Hl Hitems].
  rewrite !heap_bind_fst by apply read_only_deref.
  unfold Heap.deref. rewrite <- Hl.
  destruct (σ !! l) as [[fields|items]|]; simpl; try done.
  apply heap_map_from_agree; [done|]. intros x i Hx. by eapply Hitems.
Qed.

(** X11.  A call reads the array [vocabulary] refers to and the objects
    that array's items refer to, and nothing else of the store: two
    stores that agree there give the same outcome. *)
Theorem Heap_VocabTable_footprint (styles : string → option string)
    (props : list (string * Heap.hval)) (σ σ' : Heap.store) :
  (∀ l, Heap.own props "vocabulary" = Heap.HRef l →
     σ !! l = σ' !! l ∧
     ∀ items l', σ !! l = Some (Heap.Arr items) → Heap.HRef l' ∈ items →
       σ !! l' = σ' !! l') →
  (Heap.VocabTable styles props σ).1 = (Heap.VocabTable styles props σ').1.
Proof.
  intros H. unfold Heap.VocabTable.
  assert (Hget : ∀ k, (Heap.get (Heap.own props "vocabulary") k σ).1 =
                      (Heap.get (Heap.own props "vocabulary") k σ').1).
  { intros k. apply heap_get_agree. intros l Hl. by destruct (H l Hl). }
  match goal with
  | |- ((?g ≫= ?k) σ).1 = _ =>
      assert (Hro : Heap.read_only g);
      [ destruct (negb _); [apply read_only_ret|];
        apply read_only_bind; [apply read_only_get | intros; apply read_only_ret]
      | assert (Hg : (g σ).1 = (g σ').1);
        [ destruct (negb _); [done|];
          rewrite !heap_bind_fst by apply read_only_get; rewrite <- Hget;
          by destruct (Heap.get _ "length" σ).1
        | rewrite !(heap_bind_fst g k) by exact Hro; rewrite <- Hg;
          destruct (g σ).1 as [[|]|e]; [done| |done] ] ]
  end.
  match goal with
  | |- ((Heap.array_map ?v ?cb ≫= ?k) σ).1 = _ =>
      assert (Hcb : ∀ x i, Heap.read_only (cb x i));
      [ intros x i; repeat (apply read_only_bind; [apply read_only_get|]; intros ?);
        apply read_only_ret
      | rewrite !(heap_bind_fst (Heap.array_map v cb) k)
          by (by apply read_only_array_map);
        rewrite <- (heap_array_map_agree v cb σ σ' Hcb);
        [ by destruct (Heap.array_map v cb σ).1 |] ]
  end.
  intros l Hl. destruct (H l Hl) as [Hσ Hitems]. split; [done|].
  intros items x i Hi Hx.
  assert (Hx' : ∀ k, (Heap.get x k σ).1 = (Heap.get x k σ').1).
  { intros k. apply heap_get_agree. intros l' ->. by eapply Hitems. }
  rewrite !heap_bind_fst by apply read_only_get. rewrite <- Hx'.
  destruct (Heap.get x "german" σ).1; [|done].
  rewrite !heap_bind_fst by apply read_only_get. rewrite <- Hx'.
  destruct (Heap.get x "english" σ).1; [|done].
  rewrite !heap_bind_fst by apply read_only_get. rewrite <- Hx'.
  by destruct (Heap.get x "notes" σ).1.
Qed.

(** *** The further properties at the sample data *)

(** A list with a [null] entry throws. *)
Lemma VocabTable_array_throws_witness :
  own null_entry_props "vocabulary" = VArr [VObj haus; VNull] ∧
  Exists (λ entry, nullish entry = true) [VObj haus; VNull] ∧
  VocabTable css null_entry_props = Throw TypeError.
Proof.
  assert (Hex : Exists (λ entry, nullish entry = true) [VObj haus; VNull]).
  { apply Exists_cons_tl, Exists_cons_hd. reflexivity. }
  split; [reflexivity|]. split; [exact Hex|].
  destruct (VocabTable_array_throws css null_entry_props [VObj haus; VNull] eq_refl)
    as [[_ Hthrow] _].
  exact (Hthrow Hex).
Defined.


(** "gehen" added after "Haus". *)
Lemma VocabTable_append_witness :
  own haus_props "vocabulary" = VArr [VObj haus] ∧
  [VObj haus] ≠ [] ∧
  own sample_props "vocabulary" = VArr ([VObj haus] ++ [VObj gehen])%list ∧
  VocabTable css sample_props = Ok sample_table ∧
  ∃ out tail,
    VocabTable css haus_props = Ok out ∧
    rows sample_table = (rows out ++ tail)%list ∧
    length tail = 1.
Proof.
  assert (Hne : [VObj haus] ≠ []) by discriminate.
  split; [reflexivity|]. split; [exact Hne|]. split; [reflexivity|]. split; [reflexivity|].
  exact (VocabTable_append css haus_props sample_props [VObj haus] [VObj gehen]
           sample_table eq_refl Hne eq_refl eq_refl).
Defined.

(** "Haus" added in front of "gehen". *)
Lemma VocabTable_prepend_witness :
  own gehen_props "vocabulary" = VArr [VObj gehen] ∧
  own sample_props "vocabulary" = VArr [VObj haus; VObj gehen] ∧
  VocabTable css gehen_props =
    Ok (table css [tr css 0 (VStr "gehen") (VStr "to go") VUndefined]) ∧
  VocabTable css sample_props = Ok sample_table ∧
  ∃ row',
    rows sample_table !! 1 = Some row' ∧
    cells row' = cells (tr css 0 (VStr "gehen") (VStr "to go") VUndefined) ∧
    attr "key" row' = Some (VNum 1).
Proof.
  split; [reflexivity|]. split; [reflexivity|]. split; [reflexivity|]. split; [reflexivity|].
  destruct (VocabTable_prepend css gehen_props sample_props (VObj haus) [VObj gehen]
              (table css [tr css 0 (VStr "gehen") (VStr "to go") VUndefined])
              sample_table eq_refl eq_refl eq_refl eq_refl) as [_ Hrows].
  destruct (Hrows 0 (tr css 0 (VStr "gehen") (VStr "to go") VUndefined) eq_refl)
    as (row' & Hrow' & Hcells & _ & Hkey).
  exists row'. split; [exact Hrow'|]. split; [exact Hcells | exact Hkey].
Defined.

(** The class names of the sample table. *)
Lemma VocabTable_class_names_witness :
  VocabTable css sample_props = Ok sample_table ∧
  sample_table ≠ fallback ∧
  attr "className" sample_table = Some (VStr "vocabContainer_3xK2p") ∧
  attr "className" <$> header sample_table =
    [ Some (VStr "germanHeader_3xK2p"); Some (VStr "englishHeader_3xK2p");
      Some (VStr "notesHeader_3xK2p") ].
Proof.
  assert (Hnot : sample_table ≠ fallback) by discriminate.
  split; [reflexivity|]. split; [exact Hnot|].
  destruct (VocabTable_class_names css sample_props sample_table eq_refl Hnot)
    as (Hcontainer & _ & Hheader & _).
  split; [exact Hcontainer | exact Hheader].
Defined.

(** React can show the sample table. *)
Lemma VocabTable_shows_iff_witness :
  own sample_props "vocabulary" = VArr (VObj <$> [haus; gehen]) ∧
  [haus; gehen] ≠ [] ∧
  ∃ out, VocabTable css sample_props = Ok out ∧ shows out.
Proof.
  assert (Hne : [haus; gehen] ≠ []) by discriminate.
  split; [reflexivity|]. split; [exact Hne|].
  destruct (VocabTable_shows_iff css sample_props [haus; gehen] eq_refl Hne)
    as (out & Hout & Hiff).
  exists out. split; [exact Hout|]. apply Hiff.
  repeat constructor; intros k Hk;
    repeat (apply elem_of_cons in Hk as [->|Hk]; [eexists; reflexivity|]);
    by apply elem_of_nil in Hk.
Defined.

(** The sample store with and without the object of other code. *)
Lemma Heap_VocabTable_footprint_witness :
  (∀ l, Heap.own sample_hprops "vocabulary" = Heap.HRef l →
     sample_store !! l = busy_store !! l ∧
     ∀ items l', sample_store !! l = Some (Heap.Arr items) → Heap.HRef l' ∈ items →
       sample_store !! l' = busy_store !! l') ∧
  (Heap.VocabTable css sample_hprops sample_store).1 =
  (Heap.VocabTable css sample_hprops busy_store).1.
Proof.
  assert (H : ∀ l, Heap.own sample_hprops "vocabulary" = Heap.HRef l →
     sample_store !! l = busy_store !! l ∧
     ∀ items l', sample_store !! l = Some (Heap.Arr items) → Heap.HRef l' ∈ items →
       sample_store !! l' = busy_store !! l').
  { intros l [= <-]. split; [reflexivity|].
    intros items l' [= <-] Hin.
    repeat (apply elem_of_cons in Hin as [[= ->]|Hin]; [reflexivity|]).
    by apply elem_of_nil in Hin. }
  split; [exact H|].
  exact (Heap_VocabTable_footprint css sample_hprops sample_store busy_store H).
Defined.
